(** * Noise engine of the focus timer: a shallow embedding and its properties

    The development follows the noise generator module of the repository
    (the module the timer UI imports [startNoise], [stopBrownNoise],
    [setBrownNoiseVolume], [isBrownNoisePlaying] and [changeNoiseType] from).

    - The seven module-level variables form the record [Engine].
    - The Web Audio objects the module creates live in a store inside the
      [AudioContext]; the module's arrays hold references (indices) into it,
      so that a write through [gainNode.gain.value] is seen by every holder
      of the node.
    - Every function of the module is a computation in the monad [M], which
      threads the whole [World] (engine and host page) and a completion that
      is either normal or a thrown exception.
    - JavaScript numbers are modelled by exact rationals [Q]: the module
      stores and copies them, and only the sample generator computes with
      them.
    - [enableBackgroundPlayback] only posts a message to the service worker
      from a promise callback and reads or writes no module variable; it is
      left out.

    After the engine come the repository's older seven-band noise module
    ([LegacyModule]) and the parts of the timer component that drive the
    engine or format the clock ([App]). *)

From Stdlib Require Import QArith String List Bool Arith Lia.
From Stdlib Require Ascii Decimal DecimalFacts DecimalNat DecimalString.
From stdpp Require Import base list.
Import ListNotations.

Local Open Scope string_scope.
Local Open Scope list_scope.
Local Open Scope nat_scope.

(** ** The Web Audio platform, as far as the module uses it *)

Inductive AudioContextState := suspended | running | closed.

(** Life cycle of an [AudioBufferSourceNode]: [start] may be called once,
    on a node that has never been started; [stop] is accepted only on a node
    that is playing. *)
Inductive PlaybackState := unscheduled | playing | finished.

Inductive BiquadFilterType := lowpass | highpass.

Inductive Exception := TypeError | InvalidStateError.

Record AudioBuffer := mkAudioBuffer {
  numberOfChannels : nat;
  bufferLength : nat;
  bufferSampleRate : nat;
  channelData : list Q
}.

Record AudioBufferSourceNode := mkSource {
  buffer : option AudioBuffer;
  loop : bool;
  playbackState : PlaybackState
}.

Record GainNode := mkGain { gain : Q }.

Record BiquadFilterNode := mkBiquad {
  filterType : BiquadFilterType;
  frequency : Q;
  Qfactor : Q
}.

(** References to nodes: an index into the store of the node's kind, or the
    context's output sink. *)
Inductive NodeRef :=
| SourceRef (i : nat)
| FilterRef (i : nat)
| GainRef (i : nat)
| Destination.

Record AudioContext := mkAudioContext {
  sampleRate : nat;
  state : AudioContextState;
  pendingResumes : nat;
  sourceStore : list AudioBufferSourceNode;
  gainStore : list GainNode;
  filterStore : list BiquadFilterNode;
  connections : list (NodeRef * NodeRef)
}.

(** Listeners the module registers on [document]. *)
Inductive Listener := ResumeContext.

(** The host page: what the platform decides and what the module can only
    observe or append to. *)
Record Host := mkHost {
  audioSupported : bool;          (* window.AudioContext || window.webkitAudioContext *)
  deviceSampleRate : nat;
  autoplayBlocked : bool;         (* a new context starts suspended *)
  randomSource : nat -> Q;        (* successive results of Math.random() *)
  randomDraws : nat;
  documentHidden : bool;
  documentListeners : list (string * Listener);
  consoleLog : list string
}.

(** ** Module state *)

Record Engine := mkEngine {
  audioContext : option AudioContext;
  bufferSources : list nat;
  gainNodes : list nat;
  filterNodes : list nat;
  isPlaying : bool;
  currentVolume : Q;
  currentNoiseType : string
}.

Record World := mkWorld { engine : Engine; host : Host }.

Definition initialEngine : Engine :=
  {| audioContext := None;
     bufferSources := [];
     gainNodes := [];
     filterNodes := [];
     isPlaying := false;
     currentVolume := 0.3%Q;
     currentNoiseType := "brown" |}.

Definition initialWorld (h : Host) : World := {| engine := initialEngine; host := h |}.

(** Field updates. *)

Definition set_audioContext (c : option AudioContext) (e : Engine) : Engine :=
  mkEngine c (bufferSources e) (gainNodes e) (filterNodes e) (isPlaying e)
           (currentVolume e) (currentNoiseType e).
Definition set_bufferSources (l : list nat) (e : Engine) : Engine :=
  mkEngine (audioContext e) l (gainNodes e) (filterNodes e) (isPlaying e)
           (currentVolume e) (currentNoiseType e).
Definition set_gainNodes (l : list nat) (e : Engine) : Engine :=
  mkEngine (audioContext e) (bufferSources e) l (filterNodes e) (isPlaying e)
           (currentVolume e) (currentNoiseType e).
Definition set_filterNodes (l : list nat) (e : Engine) : Engine :=
  mkEngine (audioContext e) (bufferSources e) (gainNodes e) l (isPlaying e)
           (currentVolume e) (currentNoiseType e).
Definition set_isPlaying (b : bool) (e : Engine) : Engine :=
  mkEngine (audioContext e) (bufferSources e) (gainNodes e) (filterNodes e) b
           (currentVolume e) (currentNoiseType e).
Definition set_currentVolume (v : Q) (e : Engine) : Engine :=
  mkEngine (audioContext e) (bufferSources e) (gainNodes e) (filterNodes e)
           (isPlaying e) v (currentNoiseType e).
Definition set_currentNoiseType (t : string) (e : Engine) : Engine :=
  mkEngine (audioContext e) (bufferSources e) (gainNodes e) (filterNodes e)
           (isPlaying e) (currentVolume e) t.

Definition set_pendingResumes (n : nat) (c : AudioContext) : AudioContext :=
  mkAudioContext (sampleRate c) (state c) n (sourceStore c) (gainStore c)
                 (filterStore c) (connections c).
Definition set_sourceStore (l : list AudioBufferSourceNode) (c : AudioContext) : AudioContext :=
  mkAudioContext (sampleRate c) (state c) (pendingResumes c) l (gainStore c)
                 (filterStore c) (connections c).
Definition set_gainStore (l : list GainNode) (c : AudioContext) : AudioContext :=
  mkAudioContext (sampleRate c) (state c) (pendingResumes c) (sourceStore c) l
                 (filterStore c) (connections c).
Definition set_filterStore (l : list BiquadFilterNode) (c : AudioContext) : AudioContext :=
  mkAudioContext (sampleRate c) (state c) (pendingResumes c) (sourceStore c)
                 (gainStore c) l (connections c).
Definition set_connections (l : list (NodeRef * NodeRef)) (c : AudioContext) : AudioContext :=
  mkAudioContext (sampleRate c) (state c) (pendingResumes c) (sourceStore c)
                 (gainStore c) (filterStore c) l.

Definition set_randomDraws (n : nat) (h : Host) : Host :=
  mkHost (audioSupported h) (deviceSampleRate h) (autoplayBlocked h) (randomSource h) n
         (documentHidden h) (documentListeners h) (consoleLog h).
Definition set_documentHidden (b : bool) (h : Host) : Host :=
  mkHost (audioSupported h) (deviceSampleRate h) (autoplayBlocked h) (randomSource h)
         (randomDraws h) b (documentListeners h) (consoleLog h).
Definition set_documentListeners (l : list (string * Listener)) (h : Host) : Host :=
  mkHost (audioSupported h) (deviceSampleRate h) (autoplayBlocked h) (randomSource h)
         (randomDraws h) (documentHidden h) l (consoleLog h).
Definition set_consoleLog (l : list string) (h : Host) : Host :=
  mkHost (audioSupported h) (deviceSampleRate h) (autoplayBlocked h) (randomSource h)
         (randomDraws h) (documentHidden h) (documentListeners h) l.

(** ** The monad of module code

    A computation takes the world and returns a completion together with the
    world it leaves behind. As in JavaScript, the writes made before a throw
    stay. *)

Inductive Completion (A : Type) :=
| Normal (a : A)
| Throw (e : Exception).
Arguments Normal {A} a.
Arguments Throw {A} e.

Definition M (A : Type) : Type := World -> Completion A * World.

Definition ret {A} (a : A) : M A := fun w => (Normal a, w).

Definition bind {A B} (m : M A) (k : A -> M B) : M B :=
  fun w =>
    match m w with
    | (Normal a, w') => k a w'
    | (Throw e, w') => (Throw e, w')
    end.

(** [try { m } catch (e) { h e }] *)
Definition tryCatch {A} (m : M A) (h : Exception -> M A) : M A :=
  fun w =>
    match m w with
    | (Normal a, w') => (Normal a, w')
    | (Throw e, w') => h e w'
    end.

Declare Scope engine_scope.
Delimit Scope engine_scope with engine.
Notation "x <- m ;; k" := (bind m (fun x => k))
  (at level 100, m at next level, right associativity) : engine_scope.
Notation "m ;; k" := (bind m (fun _ => k))
  (at level 100, right associativity) : engine_scope.
Local Open Scope engine_scope.

Definition readVar {A} (f : Engine -> A) : M A := fun w => (Normal (f (engine w)), w).
Definition writeVar (f : Engine -> Engine) : M unit :=
  fun w => (Normal tt, mkWorld (f (engine w)) (host w)).
Definition readHost {A} (f : Host -> A) : M A := fun w => (Normal (f (host w)), w).
Definition writeHost (f : Host -> Host) : M unit :=
  fun w => (Normal tt, mkWorld (engine w) (f (host w))).

(** An operation on the context object the module variable refers to;
    dereferencing [null] throws. *)
Definition onContext {A} (f : AudioContext -> Completion A * AudioContext) : M A :=
  fun w =>
    match audioContext (engine w) with
    | None => (Throw TypeError, w)
    | Some c =>
        let (r, c') := f c in
        (r, mkWorld (set_audioContext (Some c') (engine w)) (host w))
    end.

(** [array.forEach(body)] *)
Fixpoint forEach {A} (l : list A) (body : A -> M unit) : M unit :=
  match l with
  | [] => ret tt
  | x :: rest => body x ;; forEach rest body
  end.

Definition run {A} (m : M A) (w : World) : World := snd (m w).
Definition completion {A} (m : M A) (w : World) : Completion A := fst (m w).

(** ** Platform operations *)

(** [new (window.AudioContext || window.webkitAudioContext)()]: a context
    with an empty graph, suspended when the page may not play yet. Without
    either constructor the [new] expression throws. *)
Definition newAudioContext : M AudioContext :=
  fun w =>
    if audioSupported (host w) then
      (Normal {| sampleRate := deviceSampleRate (host w);
                 state := if autoplayBlocked (host w) then suspended else running;
                 pendingResumes := 0;
                 sourceStore := [];
                 gainStore := [];
                 filterStore := [];
                 connections := [] |}, w)
    else (Throw TypeError, w).

(** [ctx.resume()] only queues the request: [ctx.state] changes when the
    returned promise settles, after the current task. *)
Definition resume : M unit :=
  onContext (fun c => (Normal tt, set_pendingResumes (S (pendingResumes c)) c)).

Definition addEventListener (type : string) (l : Listener) : M unit :=
  writeHost (fun h => set_documentListeners (documentListeners h ++ [(type, l)]) h).

Definition consoleLogLine (line : string) : M unit :=
  writeHost (fun h => set_consoleLog (consoleLog h ++ [line]) h).

(** [Math.random()] *)
Definition Math_random : M Q :=
  fun w =>
    (Normal (randomSource (host w) (randomDraws (host w))),
     mkWorld (engine w) (set_randomDraws (S (randomDraws (host w))) (host w))).

(** [ctx.createBuffer(channels, length, rate)]: the channel is zero-filled. *)
Definition createBuffer (channels length rate : nat) : AudioBuffer :=
  {| numberOfChannels := channels;
     bufferLength := length;
     bufferSampleRate := rate;
     channelData := replicate length 0%Q |}.

Definition createBufferSource : M nat :=
  onContext (fun c =>
    (Normal (length (sourceStore c)),
     set_sourceStore (sourceStore c ++ [mkSource None false unscheduled]) c)).

Definition createGain : M nat :=
  onContext (fun c =>
    (Normal (length (gainStore c)), set_gainStore (gainStore c ++ [mkGain 1%Q]) c)).

Definition createBiquadFilter : M nat :=
  onContext (fun c =>
    (Normal (length (filterStore c)),
     set_filterStore (filterStore c ++ [mkBiquad lowpass 350%Q 1%Q]) c)).

(** Writing a property of a node: the node in the store is replaced. *)
Definition alterAt {A} (f : A -> A) (i : nat) (l : list A) : list A :=
  match l !! i with
  | Some x => <[i := f x]> l
  | None => l
  end.

Definition setBuffer (source : nat) (b : AudioBuffer) : M unit :=
  onContext (fun c =>
    (Normal tt,
     set_sourceStore
       (alterAt (fun s => mkSource (Some b) (loop s) (playbackState s)) source (sourceStore c)) c)).

Definition setLoop (source : nat) (b : bool) : M unit :=
  onContext (fun c =>
    (Normal tt,
     set_sourceStore
       (alterAt (fun s => mkSource (buffer s) b (playbackState s)) source (sourceStore c)) c)).

Definition setGainValue (node : nat) (v : Q) : M unit :=
  onContext (fun c =>
    (Normal tt, set_gainStore (alterAt (fun _ => mkGain v) node (gainStore c)) c)).

Definition setFilterType (node : nat) (t : BiquadFilterType) : M unit :=
  onContext (fun c =>
    (Normal tt,
     set_filterStore
       (alterAt (fun f => mkBiquad t (frequency f) (Qfactor f)) node (filterStore c)) c)).

Definition setFrequency (node : nat) (v : Q) : M unit :=
  onContext (fun c =>
    (Normal tt,
     set_filterStore
       (alterAt (fun f => mkBiquad (filterType f) v (Qfactor f)) node (filterStore c)) c)).

Definition setQ (node : nat) (v : Q) : M unit :=
  onContext (fun c =>
    (Normal tt,
     set_filterStore
       (alterAt (fun f => mkBiquad (filterType f) (frequency f) v) node (filterStore c)) c)).

(** [a.connect(b)] *)
Definition connect (a b : NodeRef) : M unit :=
  onContext (fun c => (Normal tt, set_connections (connections c ++ [(a, b)]) c)).

(** [source.start(0)]: throws unless the node has never been started. *)
Definition sourceStart (source : nat) : M unit :=
  onContext (fun c =>
    match sourceStore c !! source with
    | Some s =>
        match playbackState s with
        | unscheduled =>
            (Normal tt,
             set_sourceStore (<[source := mkSource (buffer s) (loop s) playing]> (sourceStore c)) c)
        | _ => (Throw InvalidStateError, c)
        end
    | None => (Throw TypeError, c)
    end).

(** [source.stop()]: throws when the node is not playing, in particular when
    the platform has already ended it. *)
Definition sourceStop (source : nat) : M unit :=
  onContext (fun c =>
    match sourceStore c !! source with
    | Some s =>
        match playbackState s with
        | playing =>
            (Normal tt,
             set_sourceStore (<[source := mkSource (buffer s) (loop s) finished]> (sourceStore c)) c)
        | _ => (Throw InvalidStateError, c)
        end
    | None => (Throw TypeError, c)
    end).

(** ** The module *)

Definition initAudioContext : M unit :=
  ctx <- readVar audioContext ;;
  match ctx with
  | Some _ => ret tt
  | None =>
      c <- newAudioContext ;;
      writeVar (set_audioContext (Some c)) ;;
      match state c with
      | suspended =>
          addEventListener "click" ResumeContext ;;
          addEventListener "touchstart" ResumeContext
      | _ => ret tt
      end
  end.

(** The two filter helpers of the module. No function of the module calls
    them: [startNoise] builds its filters inline. Their parameter [ctx] is
    the module's context, the only one of the world; a call before the
    context exists passes [null], and [ctx.createBiquadFilter()] throws. *)
Definition createPinkNoiseFilter : M nat :=
  filter <- createBiquadFilter ;;
  setFilterType filter highpass ;;
  setFrequency filter 20%Q ;;
  ret filter.

Definition createBrownNoiseFilters : M (list nat) :=
  filter1 <- createBiquadFilter ;;
  setFilterType filter1 lowpass ;;
  setFrequency filter1 1000%Q ;;
  setQ filter1 0.707%Q ;;
  filter2 <- createBiquadFilter ;;
  setFilterType filter2 lowpass ;;
  setFrequency filter2 500%Q ;;
  setQ filter2 0.707%Q ;;
  ret [filter1; filter2].

(** The loop [for (let i = 0; i < bufferSize; i++) data[i] = Math.random() * 2 - 1],
    with [remaining = bufferSize - i]. A typed array ignores a write past its
    end, as the list update does. *)
Fixpoint fillNoise (remaining i : nat) (data : list Q) : M (list Q) :=
  match remaining with
  | O => ret data
  | S remaining' =>
      r <- Math_random ;;
      fillNoise remaining' (S i) (<[i := (r * 2 - 1)%Q]> data)
  end.

Definition generateWhiteNoiseBuffer (duration : option nat) : M AudioBuffer :=
  let duration := default 2 duration in
  rate <- onContext (fun c => (Normal (sampleRate c), c)) ;;
  let bufferSize := rate * duration in
  let buffer := createBuffer 1 bufferSize rate in
  data <- fillNoise bufferSize 0 (channelData buffer) ;;
  ret (mkAudioBuffer (numberOfChannels buffer) (bufferLength buffer)
                     (bufferSampleRate buffer) data).

Definition startNoise (noiseType : option string) (volume : option Q) : M unit :=
  let noiseType := default "brown" noiseType in
  let volume := default 0.3%Q volume in
  alreadyPlaying <- readVar isPlaying ;;
  if alreadyPlaying then ret tt else
  initAudioContext ;;
  ctxState <- onContext (fun c => (Normal (state c), c)) ;;
  match ctxState with suspended => resume | _ => ret tt end ;;
  writeVar (set_currentVolume volume) ;;
  writeVar (set_currentNoiseType noiseType) ;;
  buffer <- generateWhiteNoiseBuffer None ;;
  source <- createBufferSource ;;
  setBuffer source buffer ;;
  setLoop source true ;;
  gainNode <- createGain ;;
  setGainValue gainNode volume ;;
  (if String.eqb noiseType "white" then
     connect (SourceRef source) (GainRef gainNode)
   else if String.eqb noiseType "pink" then
     filter <- createBiquadFilter ;;
     setFilterType filter highpass ;;
     setFrequency filter 100%Q ;;
     setQ filter 0.707%Q ;;
     connect (SourceRef source) (FilterRef filter) ;;
     connect (FilterRef filter) (GainRef gainNode) ;;
     writeVar (fun e => set_filterNodes (filterNodes e ++ [filter]) e)
   else if String.eqb noiseType "brown" then
     filter1 <- createBiquadFilter ;;
     setFilterType filter1 lowpass ;;
     setFrequency filter1 500%Q ;;
     setQ filter1 0.707%Q ;;
     filter2 <- createBiquadFilter ;;
     setFilterType filter2 lowpass ;;
     setFrequency filter2 200%Q ;;
     setQ filter2 0.707%Q ;;
     connect (SourceRef source) (FilterRef filter1) ;;
     connect (FilterRef filter1) (FilterRef filter2) ;;
     connect (FilterRef filter2) (GainRef gainNode) ;;
     writeVar (fun e => set_filterNodes (filterNodes e ++ [filter1; filter2]) e)
   else ret tt) ;;
  connect (GainRef gainNode) Destination ;;
  sourceStart source ;;
  writeVar (fun e => set_bufferSources (bufferSources e ++ [source]) e) ;;
  writeVar (fun e => set_gainNodes (gainNodes e ++ [gainNode]) e) ;;
  writeVar (set_isPlaying true).

Definition startBrownNoise (volume : option Q) : M unit :=
  let volume := default 0.3%Q volume in
  startNoise (Some "brown") (Some volume).

Definition stopBrownNoise : M unit :=
  nowPlaying <- readVar isPlaying ;;
  if negb nowPlaying then ret tt else
  sources <- readVar bufferSources ;;
  forEach sources (fun source => tryCatch (sourceStop source) (fun _ => ret tt)) ;;
  writeVar (set_bufferSources []) ;;
  writeVar (set_gainNodes []) ;;
  writeVar (set_filterNodes []) ;;
  writeVar (set_isPlaying false).

(** An omitted [noiseType] reaches [startNoise] as [undefined], where the
    default applies. *)
Definition changeNoiseType (noiseType : option string) : M unit :=
  nowPlaying <- readVar isPlaying ;;
  if nowPlaying then
    stopBrownNoise ;;
    volume <- readVar currentVolume ;;
    startNoise noiseType (Some volume)
  else ret tt.

Definition setBrownNoiseVolume (volume : Q) : M unit :=
  writeVar (set_currentVolume volume) ;;
  nodes <- readVar gainNodes ;;
  forEach nodes (fun gainNode => setGainValue gainNode volume).

Definition isBrownNoisePlaying : M bool := readVar isPlaying.

(** The listener of [visibilitychange]. *)
Definition onVisibilityChange : M unit :=
  hidden <- readHost documentHidden ;;
  nowPlaying <- readVar isPlaying ;;
  if hidden && nowPlaying then
    consoleLogLine "Background playback: Noise continues"
  else if negb hidden && nowPlaying then
    initAudioContext ;;
    ctxState <- onContext (fun c => (Normal (state c), c)) ;;
    match ctxState with suspended => resume | _ => ret tt end
  else ret tt.

(** The listener of [beforeunload]. *)
Definition onBeforeUnload : M unit := stopBrownNoise.

(** The two lifecycle signals of the host page. The platform sets
    [document.hidden] before it fires [visibilitychange]. *)
Inductive LifecycleEvent := PageHidden | PageShown | PageUnload.

Definition dispatch (ev : LifecycleEvent) : M unit :=
  match ev with
  | PageHidden => writeHost (set_documentHidden true) ;; onVisibilityChange
  | PageShown => writeHost (set_documentHidden false) ;; onVisibilityChange
  | PageUnload => onBeforeUnload
  end.

(** The public operations, as the timer UI calls them. *)
Inductive Operation :=
| Start (noiseType : option string) (volume : option Q)
| Stop
| ChangeType (noiseType : option string)
| SetVolume (volume : Q).

Definition perform (op : Operation) : M unit :=
  match op with
  | Start t v => startNoise t v
  | Stop => stopBrownNoise
  | ChangeType t => changeNoiseType t
  | SetVolume v => setBrownNoiseVolume v
  end.

(** A caller that goes on after an operation threw sees the world the
    operation left. *)
Fixpoint performAll (ops : list Operation) (w : World) : World :=
  match ops with
  | [] => w
  | op :: rest => performAll rest (run (perform op) w)
  end.

(** ** Concrete hosts

    A desktop page with audio available at 44.1 kHz, and a random source that
    cycles through the eighths of the unit interval. *)

Definition halfRandom : nat -> Q := fun n => (Z.of_nat (n mod 8) # 8)%Q.

Definition desktopHost : Host :=
  {| audioSupported := true;
     deviceSampleRate := 441 * 100;
     autoplayBlocked := false;
     randomSource := halfRandom;
     randomDraws := 0;
     documentHidden := false;
     documentListeners := [];
     consoleLog := [] |}.

Definition desktop : World := initialWorld desktopHost.

(** ** Store lemmas *)

Section Stores.
Context {A : Type}.
Implicit Types (l : list A) (x y : A) (f : A -> A).

Lemma lookup_new l x : (l ++ [x]) !! length l = Some x.
Proof. by apply list_lookup_middle. Qed.

Lemma insert_new l x y : <[length l := y]> (l ++ [x]) = l ++ [y].
Proof.
  induction l as [|a l IH]; simpl; [reflexivity|]. by rewrite IH.
Qed.

Lemma alterAt_new f l x : alterAt f (length l) (l ++ [x]) = l ++ [f x].
Proof. unfold alterAt. rewrite lookup_new. apply insert_new. Qed.

Lemma alterAt_length f i l : length (alterAt f i l) = length l.
Proof. unfold alterAt. destruct (l !! i); [apply length_insert | reflexivity]. Qed.

Lemma length_new l x : length (l ++ [x]) = S (length l).
Proof. rewrite length_app. simpl. lia. Qed.
End Stores.

(** ** The sample generator *)

(** The contract of [Math.random]: every result is in [0, 1). *)
Definition randomInUnitInterval (h : Host) : Prop :=
  forall n, (0 <= randomSource h n /\ randomSource h n < 1)%Q.

Definition inRange (x : Q) : Prop := (-1 <= x /\ x <= 1)%Q.

Definition advance (n : nat) (w : World) : World :=
  mkWorld (engine w) (set_randomDraws (n + randomDraws (host w)) (host w)).

Lemma advance_zero w : advance 0 w = w.
Proof. by destruct w as [e []]. Qed.

Lemma sample_inRange (r : Q) : (0 <= r /\ r < 1)%Q -> inRange (r * 2 - 1).
Proof.
  intros [H0 H1]. unfold inRange.
  destruct r as [n d]. unfold Qle, Qlt in *. simpl in *. lia.
Qed.

(** The loop keeps the length of the array, touches nothing but the count of
    random draws, and leaves the slots in [i, i + remaining) in range. *)
Lemma fillNoise_spec remaining : forall i data w,
  exists data',
    fillNoise remaining i data w = (Normal data', advance remaining w)
    /\ length data' = length data
    /\ (randomInUnitInterval (host w) ->
        forall j x, data' !! j = Some x ->
          (i <= j < i + remaining /\ inRange x) \/ data !! j = Some x).
Proof.
  induction remaining as [|k IH]; intros i data w.
  - exists data. rewrite advance_zero. repeat split; auto.
  - simpl. unfold bind at 1. simpl.
    set (r := randomSource (host w) (randomDraws (host w))).
    set (w1 := mkWorld _ _).
    destruct (IH (S i) (<[i := (r * 2 - 1)%Q]> data) w1) as (data' & E & Hlen & Hx).
    exists data'. rewrite E. split; [|split].
    + f_equal. unfold advance, w1. simpl. f_equal. unfold set_randomDraws. simpl.
      f_equal. lia.
    + by rewrite Hlen, length_insert.
    + intros Hr j x Hj. destruct (Hx Hr j x Hj) as [[Hin Hrange]|Hold].
      * left. split; [lia | assumption].
      * destruct (decide (i = j)) as [->|Hne].
        -- apply list_lookup_insert_Some in Hold.
           destruct Hold as [(_ & <- & _)|(? & _)]; [|congruence].
           left. split; [lia|]. apply sample_inRange, Hr.
        -- right. by rewrite list_lookup_insert_ne in Hold.
Qed.

(** What [generateWhiteNoiseBuffer] returns on a context of rate [rate]. *)
Definition isNoiseBuffer (rate duration : nat) (b : AudioBuffer) : Prop :=
  numberOfChannels b = 1
  /\ bufferLength b = rate * duration
  /\ bufferSampleRate b = rate
  /\ length (channelData b) = rate * duration.

Lemma generateWhiteNoiseBuffer_run duration w c :
  audioContext (engine w) = Some c ->
  exists b,
    generateWhiteNoiseBuffer duration w
      = (Normal b, advance (sampleRate c * default 2 duration) w)
    /\ isNoiseBuffer (sampleRate c) (default 2 duration) b
    /\ (randomInUnitInterval (host w) -> Forall inRange (channelData b)).
Proof.
  intros Hc. unfold generateWhiteNoiseBuffer.
  set (d := default 2 duration).
  unfold bind at 1, onContext. rewrite Hc. simpl.
  set (w0 := mkWorld _ _).
  assert (Hw0 : w0 = w).
  { unfold w0. destruct w as [e h]. simpl in *. f_equal.
    destruct e. simpl in *. unfold set_audioContext. simpl. by rewrite Hc. }
  rewrite Hw0. clear w0 Hw0.
  destruct (fillNoise_spec (sampleRate c * d) 0 (replicate (sampleRate c * d) 0%Q) w)
    as (data & E & Hlen & Hx).
  unfold bind. rewrite E. exists (mkAudioBuffer 1 (sampleRate c * d) (sampleRate c) data).
  split; [reflexivity|]. split.
  - unfold isNoiseBuffer. simpl. rewrite Hlen, length_replicate. auto.
  - intros Hr. apply Forall_lookup. intros j x Hj.
    destruct (Hx Hr j x Hj) as [[_ ?]|Hold]; [assumption|].
    apply lookup_replicate_1 in Hold as [-> _]. unfold inRange, Qle. simpl. lia.
Qed.

(** ** What [startNoise] builds

    The session [startNoise] adds to a context, read off its three
    branches: the filters, in creation order, and the links among the new
    source [s], the new gain node [g] and the filters from index [f] on. *)

Definition builtFilters (t : string) : list BiquadFilterNode :=
  if String.eqb t "white" then []
  else if String.eqb t "pink" then [mkBiquad highpass 100%Q 0.707%Q]
  else if String.eqb t "brown" then
    [mkBiquad lowpass 500%Q 0.707%Q; mkBiquad lowpass 200%Q 0.707%Q]
  else [].

Definition builtLinks (t : string) (s g f : nat) : list (NodeRef * NodeRef) :=
  if String.eqb t "white" then [(SourceRef s, GainRef g)]
  else if String.eqb t "pink" then
    [(SourceRef s, FilterRef f); (FilterRef f, GainRef g)]
  else if String.eqb t "brown" then
    [(SourceRef s, FilterRef f); (FilterRef f, FilterRef (S f)); (FilterRef (S f), GainRef g)]
  else [].

Definition startedContext (t : string) (v : Q) (b : AudioBuffer) (c : AudioContext)
  : AudioContext :=
  {| sampleRate := sampleRate c;
     state := state c;
     pendingResumes :=
       match state c with suspended => S (pendingResumes c) | _ => pendingResumes c end;
     sourceStore := sourceStore c ++ [mkSource (Some b) true playing];
     gainStore := gainStore c ++ [mkGain v];
     filterStore := filterStore c ++ builtFilters t;
     connections :=
       connections c
       ++ builtLinks t (length (sourceStore c)) (length (gainStore c)) (length (filterStore c))
       ++ [(GainRef (length (gainStore c)), Destination)] |}.

Definition startedEngine (t : string) (v : Q) (b : AudioBuffer) (c : AudioContext)
  (e : Engine) : Engine :=
  {| audioContext := Some (startedContext t v b c);
     bufferSources := bufferSources e ++ [length (sourceStore c)];
     gainNodes := gainNodes e ++ [length (gainStore c)];
     filterNodes :=
       filterNodes e ++ seq (length (filterStore c)) (length (builtFilters t));
     isPlaying := true;
     currentVolume := v;
     currentNoiseType := t |}.

(** ** Running the module's functions *)

Lemma bind_normal {A B} (m : M A) (k : A -> M B) w a w' :
  m w = (Normal a, w') -> bind m k w = k a w'.
Proof. intros H. unfold bind. by rewrite H. Qed.

Lemma bind_throw {A B} (m : M A) (k : A -> M B) w e w' :
  m w = (Throw e, w') -> bind m k w = (Throw e, w').
Proof. intros H. unfold bind. by rewrite H. Qed.

(** Symbolic execution: [exec] evaluates the primitives on an explicit world,
    [run_step] runs the first statement of a sequence. *)
Ltac exec :=
  cbv beta iota zeta delta
    [bind ret tryCatch readVar writeVar readHost writeHost onContext forEach
     resume addEventListener consoleLogLine createBufferSource createGain
     createBiquadFilter setBuffer setLoop setGainValue setFilterType setFrequency setQ
     connect sourceStart sourceStop
     set_audioContext set_bufferSources set_gainNodes set_filterNodes set_isPlaying
     set_currentVolume set_currentNoiseType set_pendingResumes set_sourceStore
     set_gainStore set_filterStore set_connections set_randomDraws set_documentHidden
     set_documentListeners set_consoleLog
     audioContext bufferSources gainNodes filterNodes isPlaying currentVolume
     currentNoiseType engine host
     sampleRate state pendingResumes sourceStore gainStore filterStore connections
     audioSupported deviceSampleRate autoplayBlocked randomSource randomDraws
     documentHidden documentListeners consoleLog
     buffer loop playbackState gain filterType frequency Qfactor
     fst snd].

Ltac tidy := rewrite ?alterAt_new, ?length_new, ?lookup_new, ?insert_new.

Ltac solve_run :=
  first [ eassumption
        | exec; tidy; exec; tidy; reflexivity ].

Ltac run_step :=
  lazymatch goal with
  | |- bind ?m ?k ?w = _ => erewrite (bind_normal m k w); [ | solve_run ]; cbv beta
  end.

(** [startNoise] on an engine that is not playing and has its context: the
    call completes normally, and the world it leaves is the old one with the
    new session added. *)
Lemma startNoise_run t v w c :
  isPlaying (engine w) = false ->
  audioContext (engine w) = Some c ->
  exists b,
    startNoise t v w
      = (Normal tt,
         mkWorld (startedEngine (default "brown" t) (default 0.3%Q v) b c (engine w))
                 (set_randomDraws (sampleRate c * 2 + randomDraws (host w)) (host w)))
    /\ isNoiseBuffer (sampleRate c) 2 b
    /\ (randomInUnitInterval (host w) -> Forall inRange (channelData b)).
Proof.
  intros Hp Hc.
  destruct w as [[ctx bs gs fs pl vol ty] [sup drate blocked rs rd hid ls log]].
  simpl in *. subst.
  unfold startNoise.
  set (ty' := default "brown" t). set (v' := default 0.3%Q v).
  destruct c as [rate st pr ss gstore fstore conns].
  set (pr' := match st with suspended => S pr | _ => pr end).
  destruct (generateWhiteNoiseBuffer_run None
              (mkWorld (mkEngine (Some (mkAudioContext rate st pr' ss gstore fstore conns))
                                 bs gs fs false v' ty')
                       (mkHost sup drate blocked rs rd hid ls log)) _ eq_refl)
    as (b & E & Hb & Hr).
  subst pr'.
  exists b. split; [|split]; [|exact Hb|exact Hr].
  unfold advance in E. simpl in E.
  run_step. cbv iota.
  run_step.
  run_step.
  destruct st; cbv iota; do 4 run_step.
  all: do 5 run_step.
  all: unfold startedEngine, startedContext, builtFilters, builtLinks.
  all: destruct (String.eqb ty' "white");
      [|destruct (String.eqb ty' "pink"); [|destruct (String.eqb ty' "brown")]].
  all: cbv iota.
  all: do 3 run_step.
  all: do 2 run_step.
  all: exec.
  all: rewrite ?app_nil_r, <- ?app_assoc.
  all: try reflexivity.
Qed.

(** The context [initAudioContext] creates on a host that supports audio. *)
Definition freshContext (h : Host) : AudioContext :=
  {| sampleRate := deviceSampleRate h;
     state := if autoplayBlocked h then suspended else running;
     pendingResumes := 0;
     sourceStore := [];
     gainStore := [];
     filterStore := [];
     connections := [] |}.

(** Whether [initAudioContext] can hand out a context. *)
Definition canStart (w : World) : bool :=
  match audioContext (engine w) with
  | Some _ => true
  | None => audioSupported (host w)
  end.

Definition contextAfterInit (w : World) : AudioContext :=
  match audioContext (engine w) with
  | Some c => c
  | None => freshContext (host w)
  end.

Definition hostAfterInit (w : World) : Host :=
  match audioContext (engine w) with
  | Some _ => host w
  | None =>
      if autoplayBlocked (host w) then
        set_documentListeners
          (documentListeners (host w)
           ++ [("click", ResumeContext); ("touchstart", ResumeContext)])
          (host w)
      else host w
  end.

Definition afterInit (w : World) : World :=
  mkWorld (set_audioContext (Some (contextAfterInit w)) (engine w)) (hostAfterInit w).

Lemma initAudioContext_run w :
  initAudioContext w
  = if canStart w then (Normal tt, afterInit w) else (Throw TypeError, w).
Proof.
  destruct w as [[ctx bs gs fs pl vol ty] [sup drate blocked rs rd hid ls log]].
  unfold initAudioContext, canStart, afterInit, contextAfterInit, hostAfterInit, freshContext.
  destruct ctx as [c|]; [reflexivity|].
  destruct sup; [|reflexivity].
  destruct blocked; unfold newAudioContext; exec; rewrite <- ?app_assoc; reflexivity.
Qed.

Lemma afterInit_idem w : afterInit (afterInit w) = afterInit w.
Proof. by destruct w as [[[c|] bs gs fs pl vol ty] h]. Qed.

Lemma canStart_afterInit w : canStart (afterInit w) = true.
Proof. reflexivity. Qed.

Lemma startNoise_playing t v w :
  isPlaying (engine w) = true -> startNoise t v w = (Normal tt, w).
Proof. intros H. unfold startNoise, bind, readVar. by rewrite H. Qed.

(** While not playing, [startNoise] throws exactly when no context can be
    had, before any write; otherwise it goes on from the world
    [initAudioContext] leaves. *)
Lemma startNoise_afterInit t v w :
  isPlaying (engine w) = false ->
  startNoise t v w
  = if canStart w then startNoise t v (afterInit w) else (Throw TypeError, w).
Proof.
  intros Hp. unfold startNoise.
  erewrite (bind_normal (readVar isPlaying) _ w);
    [|unfold readVar; rewrite Hp; reflexivity].
  cbv beta iota.
  destruct (canStart w) eqn:Hc.
  - erewrite (bind_normal initAudioContext _ w);
      [|rewrite initAudioContext_run, Hc; reflexivity].
    erewrite (bind_normal (readVar isPlaying) _ (afterInit w));
      [|unfold readVar; reflexivity].
    assert (isPlaying (engine (afterInit w)) = false) as ->
      by (destruct w as [[] ?]; exact Hp).
    cbv beta iota.
    erewrite (bind_normal initAudioContext _ (afterInit w));
      [|rewrite initAudioContext_run, canStart_afterInit, afterInit_idem; reflexivity].
    reflexivity.
  - erewrite (bind_throw initAudioContext _ w);
      [|rewrite initAudioContext_run, Hc]; reflexivity.
Qed.

(** The three outcomes of [startNoise]. *)
Lemma startNoise_cases t v w :
  (isPlaying (engine w) = true /\ startNoise t v w = (Normal tt, w))
  \/ (isPlaying (engine w) = false /\ canStart w = false
      /\ startNoise t v w = (Throw TypeError, w))
  \/ (isPlaying (engine w) = false /\ canStart w = true
      /\ exists b,
           startNoise t v w
           = (Normal tt,
              mkWorld (startedEngine (default "brown" t) (default 0.3%Q v) b
                         (contextAfterInit w) (engine w))
                      (set_randomDraws
                         (sampleRate (contextAfterInit w) * 2 + randomDraws (host w))
                         (hostAfterInit w)))
           /\ isNoiseBuffer (sampleRate (contextAfterInit w)) 2 b
           /\ (randomInUnitInterval (host w) -> Forall inRange (channelData b))).
Proof.
  destruct (isPlaying (engine w)) eqn:Hp.
  - left. split; [reflexivity|]. by apply startNoise_playing.
  - right. rewrite startNoise_afterInit by assumption.
    destruct (canStart w) eqn:Hc; [right|left]; repeat split.
    destruct (startNoise_run t v (afterInit w) (contextAfterInit w)) as (b & E & Hb & Hr).
    { destruct w as [[] ?]; exact Hp. }
    { reflexivity. }
    exists b. split; [|split].
    + rewrite E. f_equal. f_equal.
      destruct w as [[ctx bs gs fs pl vol ty] [sup drate blocked rs rd hid ls log]].
      unfold hostAfterInit. simpl.
      destruct ctx; [reflexivity|]. destruct blocked; reflexivity.
    + exact Hb.
    + intros Hrand. apply Hr. intros n.
      destruct w as [[ctx bs gs fs pl vol ty] [sup drate blocked rs rd hid ls log]].
      unfold afterInit, hostAfterInit. simpl.
      destruct ctx; [apply Hrand|]. destruct blocked; apply Hrand.
Qed.

(** *** [forEach] over a body that never throws *)

Lemma forEach_normal {A} (body : A -> M unit) (f : A -> World -> World)
  (P : World -> Prop) :
  (forall x w, P w -> body x w = (Normal tt, f x w) /\ P (f x w)) ->
  forall l w, P w -> forEach l body w = (Normal tt, fold_left (fun w x => f x w) l w).
Proof.
  intros Hbody l. induction l as [|x l IH]; intros w Hw; simpl; [reflexivity|].
  destruct (Hbody x w Hw) as [E Hw'].
  erewrite bind_normal by exact E. by apply IH.
Qed.

(** *** [stopBrownNoise] *)

(** The effect of [try { source.stop() } catch (e) {}] on the context: a
    playing node ends, anything else is left as it is. *)
Definition haltSource (i : nat) (c : AudioContext) : AudioContext :=
  match sourceStore c !! i with
  | Some s =>
      match playbackState s with
      | playing =>
          set_sourceStore (<[i := mkSource (buffer s) (loop s) finished]> (sourceStore c)) c
      | _ => c
      end
  | None => c
  end.

Definition haltAll (l : list nat) (c : AudioContext) : AudioContext :=
  fold_left (fun c i => haltSource i c) l c.

Definition onEngineContext (f : AudioContext -> AudioContext) (w : World) : World :=
  mkWorld (set_audioContext (f <$> audioContext (engine w)) (engine w)) (host w).

Lemma onEngineContext_fold {A} (f : A -> AudioContext -> AudioContext) l w :
  fold_left (fun w x => onEngineContext (f x) w) l w
  = onEngineContext (fun c => fold_left (fun c x => f x c) l c) w.
Proof.
  revert w. induction l as [|x l IH]; intros w; simpl.
  - by destruct w as [[[c|] ? ? ? ? ? ?] ?].
  - rewrite IH. by destruct w as [[[c|] ? ? ? ? ? ?] ?].
Qed.

Lemma guarded_stop_run i w :
  tryCatch (sourceStop i) (fun _ => ret tt) w = (Normal tt, onEngineContext (haltSource i) w).
Proof.
  destruct w as [[[c|] bs gs fs pl vol ty] h]; [|reflexivity].
  unfold tryCatch, sourceStop, onContext, onEngineContext, haltSource. simpl.
  destruct (sourceStore c !! i) as [s|]; [|by destruct c].
  destruct (playbackState s); by destruct c.
Qed.

Definition stoppedEngine (e : Engine) : Engine :=
  {| audioContext := haltAll (bufferSources e) <$> audioContext e;
     bufferSources := [];
     gainNodes := [];
     filterNodes := [];
     isPlaying := false;
     currentVolume := currentVolume e;
     currentNoiseType := currentNoiseType e |}.

(** [stopBrownNoise] never throws: it leaves an idle engine, or the world as
    it was when nothing was playing. *)
Lemma stopBrownNoise_run w :
  stopBrownNoise w
  = (Normal tt,
     if isPlaying (engine w) then mkWorld (stoppedEngine (engine w)) (host w) else w).
Proof.
  unfold stopBrownNoise.
  erewrite (bind_normal (readVar isPlaying)) by reflexivity.
  destruct (isPlaying (engine w)) eqn:Hp; [|reflexivity]. cbv beta iota delta [negb].
  erewrite (bind_normal (readVar bufferSources)) by reflexivity.
  erewrite bind_normal
    by (apply (forEach_normal _ (fun i => onEngineContext (haltSource i)) (fun _ => True));
        [split; [apply guarded_stop_run|exact I]|exact I]).
  rewrite onEngineContext_fold.
  destruct w as [[ctx bs gs fs pl vol ty] h]. by destruct ctx.
Qed.

Lemma haltSource_frame i c :
  sampleRate (haltSource i c) = sampleRate c
  /\ state (haltSource i c) = state c
  /\ pendingResumes (haltSource i c) = pendingResumes c
  /\ length (sourceStore (haltSource i c)) = length (sourceStore c)
  /\ gainStore (haltSource i c) = gainStore c
  /\ filterStore (haltSource i c) = filterStore c
  /\ connections (haltSource i c) = connections c.
Proof.
  unfold haltSource. destruct (sourceStore c !! i) as [s|]; [|by repeat split].
  destruct (playbackState s); repeat split; simpl; auto using length_insert.
Qed.

Lemma haltAll_frame l c :
  sampleRate (haltAll l c) = sampleRate c
  /\ state (haltAll l c) = state c
  /\ pendingResumes (haltAll l c) = pendingResumes c
  /\ length (sourceStore (haltAll l c)) = length (sourceStore c)
  /\ gainStore (haltAll l c) = gainStore c
  /\ filterStore (haltAll l c) = filterStore c
  /\ connections (haltAll l c) = connections c.
Proof.
  revert c. induction l as [|i l IH]; intros c; simpl; [by repeat split|].
  destruct (IH (haltSource i c)) as (-> & -> & -> & -> & -> & -> & ->).
  apply haltSource_frame.
Qed.

(** After the guarded stop no node is playing that [haltSource] was applied to. *)
Definition isPlayingNode (c : AudioContext) (i : nat) : bool :=
  match sourceStore c !! i with
  | Some s => match playbackState s with playing => true | _ => false end
  | None => false
  end.

Lemma haltSource_silent i c : isPlayingNode (haltSource i c) i = false.
Proof.
  unfold haltSource, isPlayingNode.
  destruct (sourceStore c !! i) as [s|] eqn:Hs; [|by rewrite Hs].
  destruct (playbackState s) eqn:Hst; simpl; rewrite ?Hs, ?Hst; try reflexivity.
  rewrite list_lookup_insert_eq; [reflexivity|]. by eapply lookup_lt_Some.
Qed.

Lemma haltSource_keeps_silent i j c :
  isPlayingNode c j = false -> isPlayingNode (haltSource i c) j = false.
Proof.
  intros H. destruct (decide (i = j)) as [->|Hne]; [apply haltSource_silent|].
  unfold haltSource, isPlayingNode in *.
  destruct (sourceStore c !! i) as [s|]; [|exact H].
  destruct (playbackState s); try exact H. simpl.
  by rewrite list_lookup_insert_ne.
Qed.

Lemma haltAll_keeps_silent l j c :
  isPlayingNode c j = false -> isPlayingNode (haltAll l c) j = false.
Proof.
  revert c. induction l as [|i l IH]; intros c H; simpl; [exact H|].
  apply IH, haltSource_keeps_silent, H.
Qed.

Lemma haltAll_silent l c : Forall (fun i => isPlayingNode (haltAll l c) i = false) l.
Proof.
  revert c. induction l as [|i l IH]; intros c; constructor.
  - simpl. apply haltAll_keeps_silent, haltSource_silent.
  - apply IH.
Qed.

(** *** [setBrownNoiseVolume] *)

Definition setGain (v : Q) (g : nat) (c : AudioContext) : AudioContext :=
  set_gainStore (alterAt (fun _ => mkGain v) g (gainStore c)) c.

Definition setGains (v : Q) (l : list nat) (c : AudioContext) : AudioContext :=
  fold_left (fun c g => setGain v g c) l c.

Definition revolumedEngine (v : Q) (e : Engine) : Engine :=
  {| audioContext := setGains v (gainNodes e) <$> audioContext e;
     bufferSources := bufferSources e;
     gainNodes := gainNodes e;
     filterNodes := filterNodes e;
     isPlaying := isPlaying e;
     currentVolume := v;
     currentNoiseType := currentNoiseType e |}.

(** The stored volume is written first; the loop over the live gain nodes can
    only fail on an engine that holds gain nodes without a context. *)
Lemma setBrownNoiseVolume_run v w :
  setBrownNoiseVolume v w
  = (match audioContext (engine w), gainNodes (engine w) with
     | None, _ :: _ => Throw TypeError
     | _, _ => Normal tt
     end,
     mkWorld (revolumedEngine v (engine w)) (host w)).
Proof.
  unfold setBrownNoiseVolume.
  erewrite (bind_normal (writeVar _)) by reflexivity.
  erewrite (bind_normal (readVar _)) by reflexivity.
  destruct w as [[ctx bs gs fs pl vol ty] h]. unfold revolumedEngine. simpl.
  destruct ctx as [c|].
  - rewrite (forEach_normal _ (fun g => onEngineContext (setGain v g))
               (fun w => is_Some (audioContext (engine w)))).
    + rewrite onEngineContext_fold. reflexivity.
    + intros g [[[c'|] ? ? ? ? ? ?] ?] [? Hsome]; [|discriminate].
      split; [reflexivity|]. simpl. eauto.
    + simpl. eauto.
  - destruct gs as [|g gs]; reflexivity.
Qed.

Lemma setGain_frame v g c :
  sampleRate (setGain v g c) = sampleRate c
  /\ state (setGain v g c) = state c
  /\ pendingResumes (setGain v g c) = pendingResumes c
  /\ sourceStore (setGain v g c) = sourceStore c
  /\ length (gainStore (setGain v g c)) = length (gainStore c)
  /\ filterStore (setGain v g c) = filterStore c
  /\ connections (setGain v g c) = connections c.
Proof. repeat split. simpl. apply alterAt_length. Qed.

Lemma setGains_frame v l c :
  sampleRate (setGains v l c) = sampleRate c
  /\ state (setGains v l c) = state c
  /\ pendingResumes (setGains v l c) = pendingResumes c
  /\ sourceStore (setGains v l c) = sourceStore c
  /\ length (gainStore (setGains v l c)) = length (gainStore c)
  /\ filterStore (setGains v l c) = filterStore c
  /\ connections (setGains v l c) = connections c.
Proof.
  revert c. induction l as [|g l IH]; intros c; simpl; [by repeat split|].
  destruct (IH (setGain v g c)) as (-> & -> & -> & -> & -> & -> & ->).
  apply setGain_frame.
Qed.

(** *** [changeNoiseType] *)

Lemma changeNoiseType_run t w :
  changeNoiseType t w
  = if isPlaying (engine w)
    then startNoise t (Some (currentVolume (engine w)))
           (mkWorld (stoppedEngine (engine w)) (host w))
    else (Normal tt, w).
Proof.
  unfold changeNoiseType.
  erewrite (bind_normal (readVar isPlaying)) by reflexivity.
  destruct (isPlaying (engine w)) eqn:Hp; [|reflexivity]. cbv beta iota.
  erewrite (bind_normal stopBrownNoise) by (rewrite stopBrownNoise_run, Hp; reflexivity).
  erewrite (bind_normal (readVar currentVolume)) by reflexivity.
  reflexivity.
Qed.

(** *** Lifecycle listeners *)

Definition backgroundNote : string := "Background playback: Noise continues".

Lemma dispatch_hidden_run w :
  dispatch PageHidden w
  = (Normal tt,
     mkWorld (engine w)
       (if isPlaying (engine w)
        then set_consoleLog (consoleLog (host w) ++ [backgroundNote])
               (set_documentHidden true (host w))
        else set_documentHidden true (host w))).
Proof.
  destruct w as [[ctx bs gs fs pl vol ty] [sup drate blocked rs rd hid ls log]].
  unfold dispatch, onVisibilityChange. destruct pl; reflexivity.
Qed.

(** What a listener may change of the engine without touching the session:
    the context may come into being or have a resume queued, nothing else. *)
Definition sameGraph (c c' : AudioContext) : Prop :=
  sampleRate c' = sampleRate c
  /\ sourceStore c' = sourceStore c
  /\ gainStore c' = gainStore c
  /\ filterStore c' = filterStore c
  /\ connections c' = connections c.

Definition sameSession (e e' : Engine) : Prop :=
  bufferSources e' = bufferSources e
  /\ gainNodes e' = gainNodes e
  /\ filterNodes e' = filterNodes e
  /\ isPlaying e' = isPlaying e
  /\ currentVolume e' = currentVolume e
  /\ currentNoiseType e' = currentNoiseType e
  /\ forall c, audioContext e = Some c ->
       exists c', audioContext e' = Some c' /\ sameGraph c c'.

Lemma sameSession_refl e : sameSession e e.
Proof. repeat split. intros c Hc. exists c. by repeat split. Qed.

Lemma dispatch_shown_sameSession w :
  sameSession (engine w) (engine (run (dispatch PageShown) w)).
Proof.
  destruct w as [[ctx bs gs fs pl vol ty] [sup drate blocked rs rd hid ls log]].
  unfold run, dispatch, onVisibilityChange.
  destruct pl; [|apply sameSession_refl].
  destruct ctx as [[rate st pr ss gstore fstore conns]|].
  - destruct st; repeat split; intros c [= <-]; eexists; by repeat split.
  - unfold initAudioContext, newAudioContext.
    destruct sup; [destruct blocked|]; repeat split; intros c [=].
Qed.

Lemma dispatch_unload_run w : dispatch PageUnload w = stopBrownNoise w.
Proof. reflexivity. Qed.

(** ** Well-formed engines

    The relation between the playing flag and the session arrays that every
    function of the module keeps: an idle engine holds no node; a playing
    engine has its context, one source and one gain node, and every node it
    holds is in the context's store. *)

Definition wellFormed (w : World) : Prop :=
  let e := engine w in
  if isPlaying e then
    exists c s g,
      audioContext e = Some c
      /\ bufferSources e = [s] /\ gainNodes e = [g]
      /\ s < length (sourceStore c) /\ g < length (gainStore c)
      /\ Forall (fun f => f < length (filterStore c)) (filterNodes e)
      /\ length (filterNodes e) = length (builtFilters (currentNoiseType e))
  else bufferSources e = [] /\ gainNodes e = [] /\ filterNodes e = [].

Lemma wellFormed_initial h : wellFormed (initialWorld h).
Proof. by repeat split. Qed.

Lemma wellFormed_start t v w : wellFormed w -> wellFormed (run (startNoise t v) w).
Proof.
  intros Hw. unfold run.
  destruct (startNoise_cases t v w)
    as [[_ ->]|[(_ & _ & ->)|(Hp & _ & b & -> & _)]]; try exact Hw.
  unfold wellFormed in *. rewrite Hp in Hw. destruct Hw as (Hbs & Hgs & Hfs).
  simpl. rewrite Hbs, Hgs, Hfs.
  eexists _, _, _. repeat split; simpl.
  - rewrite length_new. lia.
  - rewrite length_new. lia.
  - rewrite length_app. apply Forall_seq. intros; lia.
  - apply length_seq.
Qed.

Lemma wellFormed_stop w : wellFormed w -> wellFormed (run stopBrownNoise w).
Proof.
  intros Hw. unfold run. rewrite stopBrownNoise_run. simpl.
  destruct (isPlaying (engine w)) eqn:Hp; [|exact Hw]. by repeat split.
Qed.

Lemma wellFormed_changeType t w :
  wellFormed w -> wellFormed (run (changeNoiseType t) w).
Proof.
  intros Hw. unfold run. rewrite changeNoiseType_run.
  destruct (isPlaying (engine w)) eqn:Hp; [|exact Hw].
  apply (wellFormed_start t _ (mkWorld (stoppedEngine (engine w)) (host w))).
  by repeat split.
Qed.

Lemma wellFormed_setVolume v w :
  wellFormed w -> wellFormed (run (setBrownNoiseVolume v) w).
Proof.
  intros Hw. unfold run. rewrite setBrownNoiseVolume_run. simpl.
  unfold wellFormed in *. simpl.
  destruct (isPlaying (engine w)); [|exact Hw].
  destruct Hw as (c & s & g & Hc & Hbs & Hgs & Hs & Hg & Hf & Hn).
  exists (setGains v (gainNodes (engine w)) c), s, g.
  destruct (setGains_frame v (gainNodes (engine w)) c) as (_ & _ & _ & -> & -> & -> & _).
  rewrite Hc. by repeat split.
Qed.

Lemma wellFormed_perform op w : wellFormed w -> wellFormed (run (perform op) w).
Proof.
  destruct op; simpl;
    auto using wellFormed_start, wellFormed_stop, wellFormed_changeType,
               wellFormed_setVolume.
Qed.

Lemma wellFormed_performAll ops : forall w, wellFormed w -> wellFormed (performAll ops w).
Proof.
  induction ops as [|op ops IH]; intros w Hw; simpl; [exact Hw|].
  apply IH, wellFormed_perform, Hw.
Qed.

Lemma wellFormed_dispatch ev w : wellFormed w -> wellFormed (run (dispatch ev) w).
Proof.
  intros Hw. destruct ev.
  - unfold run. rewrite dispatch_hidden_run. exact Hw.
  - pose proof (dispatch_shown_sameSession w) as (Hbs & Hgs & Hfs & Hp & _ & Hty & Hc).
    unfold wellFormed in *. rewrite Hp, Hbs, Hgs, Hfs, Hty.
    destruct (isPlaying (engine w)); [|exact Hw].
    destruct Hw as (c & s & g & Hctx & ? & ? & ? & ? & ? & ?).
    destruct (Hc c Hctx) as (c' & Hc' & _ & Hss & Hgg & Hff & _).
    exists c', s, g. rewrite Hss, Hgg, Hff. by repeat split.
  - apply wellFormed_stop, Hw.
Qed.

(** The same relation as a check that can be run on a concrete world. *)
Definition checkWellFormed (w : World) : bool :=
  let e := engine w in
  if isPlaying e then
    match audioContext e, bufferSources e, gainNodes e with
    | Some c, [s], [g] =>
        (s <? length (sourceStore c))
        && (g <? length (gainStore c))
        && forallb (fun f => f <? length (filterStore c)) (filterNodes e)
        && (length (filterNodes e) =? length (builtFilters (currentNoiseType e)))
    | _, _, _ => false
    end
  else
    match bufferSources e, gainNodes e, filterNodes e with
    | [], [], [] => true
    | _, _, _ => false
    end.

Lemma checkWellFormed_sound w : checkWellFormed w = true -> wellFormed w.
Proof.
  unfold checkWellFormed, wellFormed. cbv zeta.
  destruct (isPlaying (engine w)).
  - destruct (audioContext (engine w)) as [c|]; [|discriminate].
    destruct (bufferSources (engine w)) as [|s [|]]; try discriminate.
    destruct (gainNodes (engine w)) as [|g [|]]; try discriminate.
    rewrite !andb_true_iff, Nat.eqb_eq, !Nat.ltb_lt, forallb_forall.
    intros [[[Hs Hg] Hf] Hn]. exists c, s, g. repeat split; try assumption.
    apply Forall_forall. intros f Hin. apply Nat.ltb_lt, Hf.
    by apply list_elem_of_In.
  - destruct (bufferSources (engine w)); [|discriminate].
    destruct (gainNodes (engine w)); [|discriminate].
    destruct (filterNodes (engine w)); [|discriminate]. by repeat split.
Qed.

(** ** The session and the playing flag *)

Lemma builtFilters_nonempty t :
  builtFilters t <> [] <-> t = "pink" \/ t = "brown".
Proof.
  unfold builtFilters.
  destruct (String.eqb_spec t "white") as [->|_].
  { split; [congruence|intros [?|?]; discriminate]. }
  destruct (String.eqb_spec t "pink") as [->|Hp].
  { split; [auto|discriminate]. }
  destruct (String.eqb_spec t "brown") as [->|Hb].
  { split; [auto|discriminate]. }
  split; [congruence|intros [?|?]; congruence].
Qed.

(** The reading of the invariant that asks every one of the three arrays to
    be non-empty while playing. *)
Definition everySetFollowsFlag (e : Engine) : Prop :=
  (isPlaying e = true <->
     bufferSources e <> [] /\ gainNodes e <> [] /\ filterNodes e <> [])
  /\ (isPlaying e = false ->
        bufferSources e = [] /\ gainNodes e = [] /\ filterNodes e = []).

(** C1, as stated, fails: after [start('white', 0.3)] on a fresh page the
    engine is playing and holds a source and a gain node, but its array of
    filter nodes is empty, because a white session has no filter stage. *)
Lemma white_session_has_no_filter_node :
  let e := engine (performAll [Start (Some "white") (Some 0.3%Q)] desktop) in
  isPlaying e = true
  /\ bufferSources e = [0] /\ gainNodes e = [0] /\ filterNodes e = []
  /\ ~ everySetFollowsFlag e.
Proof.
  repeat split; try reflexivity.
  intros [[H _] _]. destruct (H eq_refl) as (_ & _ & Hf). by apply Hf.
Qed.

(** C1, amended: after any sequence of the public operations, started on a
    fresh page of any host, the arrays of buffer sources and of gain nodes
    are non-empty (one node each) exactly when [isPlaying] is true; the array
    of filter nodes is non-empty exactly when the engine is playing a type
    that has filter stages ('pink' or 'brown'); and all three arrays are
    empty when [isPlaying] is false. *)
Theorem session_follows_playing_flag (h : Host) (ops : list Operation) :
  let e := engine (performAll ops (initialWorld h)) in
  (isPlaying e = true <-> bufferSources e <> [])
  /\ (isPlaying e = true <-> gainNodes e <> [])
  /\ (isPlaying e = true /\ (currentNoiseType e = "pink" \/ currentNoiseType e = "brown")
      <-> filterNodes e <> [])
  /\ (if isPlaying e
      then length (bufferSources e) = 1 /\ length (gainNodes e) = 1
      else bufferSources e = [] /\ gainNodes e = [] /\ filterNodes e = []).
Proof.
  pose proof (wellFormed_performAll ops _ (wellFormed_initial h)) as Hw.
  unfold wellFormed in Hw. cbv zeta in *.
  destruct (isPlaying (engine (performAll ops (initialWorld h)))).
  - destruct Hw as (c & s & g & _ & -> & -> & _ & _ & _ & Hn).
    split; [|split; [|split]]; try done.
    split.
    + intros [_ Hty%builtFilters_nonempty] Hnil.
      rewrite Hnil in Hn. destruct (builtFilters _); done.
    + intros Hf. split; [reflexivity|].
      apply builtFilters_nonempty. intros Hnil. rewrite Hnil in Hn.
      destruct (filterNodes _); done.
  - destruct Hw as (-> & -> & ->).
    split; [|split; [|split]]; try done.
    split; [by intros [? _]|done].
Qed.

(** ** The filter chain of each noise type *)

Inductive NoiseType := white | pink | brown.

Definition typeName (t : NoiseType) : string :=
  match t with
  | white => "white"
  | pink => "pink"
  | brown => "brown"
  end.

(** The policy table of the specification, row by row: the stages of the
    chain in signal order. *)
Definition policyChain (t : NoiseType) : list BiquadFilterNode :=
  match t with
  | white => []
  | pink => [mkBiquad highpass 100%Q 0.707%Q]
  | brown => [mkBiquad lowpass 500%Q 0.707%Q; mkBiquad lowpass 200%Q 0.707%Q]
  end.

(** The links of a cascade: each node of the path feeds the next one. *)
Fixpoint cascade (path : list NodeRef) : list (NodeRef * NodeRef) :=
  match path with
  | a :: (b :: _) as rest => (a, b) :: cascade rest
  | _ => []
  end.

(** The filter nodes a session refers to, read from the context's store. *)
Definition sessionFilters (e : Engine) : list (option BiquadFilterNode) :=
  match audioContext e with
  | Some c => map (fun f => filterStore c !! f) (filterNodes e)
  | None => []
  end.

Definition contextConnections (e : Engine) : list (NodeRef * NodeRef) :=
  match audioContext e with
  | Some c => connections c
  | None => []
  end.

Lemma lookup_appended {A} (l k : list A) i : (l ++ k) !! (length l + i) = k !! i.
Proof. induction l as [|a l IH]; simpl; [reflexivity|exact IH]. Qed.

Lemma lookup_appended_0 {A} (l k : list A) : (l ++ k) !! length l = k !! 0.
Proof. rewrite <- (Nat.add_0_r (length l)) at 1. apply lookup_appended. Qed.

Lemma lookup_appended_1 {A} (l k : list A) : (l ++ k) !! S (length l) = k !! 1.
Proof. rewrite <- (Nat.add_1_r (length l)). apply lookup_appended. Qed.

(** C2: on a well-formed idle engine that can obtain a context,
    [startNoise] with one of the three noise types completes normally and
    builds exactly the chain of the policy table: no filter for 'white', with
    the source linked straight to the gain node; one high-pass stage at 100 Hz
    with Q 0.707 for 'pink'; two low-pass stages at 500 Hz and 200 Hz with
    Q 0.707 each for 'brown'. The new links form the cascade source, filters
    in order, gain node, output sink. *)
Theorem startNoise_builds_policy_chain (w : World) (t : NoiseType) (v : option Q) :
  wellFormed w ->
  isPlaying (engine w) = false ->
  canStart w = true ->
  let e' := engine (run (startNoise (Some (typeName t)) v) w) in
  completion (startNoise (Some (typeName t)) v) w = Normal tt
  /\ isPlaying e' = true
  /\ sessionFilters e' = map Some (policyChain t)
  /\ exists s g,
       bufferSources e' = [s] /\ gainNodes e' = [g]
       /\ contextConnections e'
          = connections (contextAfterInit w)
            ++ cascade (SourceRef s :: map FilterRef (filterNodes e')
                          ++ [GainRef g; Destination]).
Proof.
  intros Hw Hp Hc. unfold run, completion.
  destruct (startNoise_cases (Some (typeName t)) v w)
    as [[Hp' _]|[(_ & Hc' & _)|(_ & _ & b & -> & _)]]; [congruence..|].
  unfold wellFormed in Hw. rewrite Hp in Hw. destruct Hw as (Hbs & Hgs & Hfs).
  cbv zeta. unfold sessionFilters, contextConnections. simpl.
  rewrite Hbs, Hgs, Hfs. simpl.
  split; [reflexivity|]. split; [reflexivity|].
  destruct t; simpl; rewrite ?lookup_appended_0, ?lookup_appended_1; simpl.
  all: split; [reflexivity|]; eexists _, _; repeat split.
Qed.

Lemma startNoise_builds_policy_chain_witness :
  let e' := engine (run (startNoise (Some "brown") (Some 0.5%Q)) desktop) in
  sessionFilters e'
  = [Some (mkBiquad lowpass 500%Q 0.707%Q); Some (mkBiquad lowpass 200%Q 0.707%Q)]
  /\ filterNodes e' = [0; 1].
Proof.
  assert (Hw : wellFormed desktop) by (repeat split).
  destruct (startNoise_builds_policy_chain desktop brown (Some 0.5%Q) Hw eq_refl eq_refl)
    as (_ & _ & Hchain & _).
  split; [exact Hchain | reflexivity].
Defined.

(** The two filter helpers of the module would build other chains (a 20 Hz
    high-pass; low-pass stages at 1000 Hz and 500 Hz), but nothing calls
    them. *)
Example createBrownNoiseFilters_unused_values :
  let w := afterInit desktop in
  (filterStore <$> audioContext (engine (run createBrownNoiseFilters w)))
  = Some [mkBiquad lowpass 1000%Q 0.707%Q; mkBiquad lowpass 500%Q 0.707%Q]
  /\ (filterStore <$> audioContext (engine (run createPinkNoiseFilter w)))
     = Some [mkBiquad highpass 20%Q 1%Q].
Proof. split; reflexivity. Qed.

(** ** [start] while playing *)

(** C4: [start(t, v)] on an idle engine that can obtain a context leaves a
    playing session of type [t] and volume [v] (the defaults 'brown' and 0.3
    standing in for omitted arguments), and a second [start(t2, v2)] without
    a [stop] in between completes normally and leaves the whole world,
    engine and platform, exactly as the first call left it. *)
Theorem second_start_is_noop (w : World) (t t2 : option string) (v v2 : option Q) :
  isPlaying (engine w) = false ->
  canStart w = true ->
  let w1 := run (startNoise t v) w in
  completion (startNoise t v) w = Normal tt
  /\ isPlaying (engine w1) = true
  /\ currentNoiseType (engine w1) = default "brown" t
  /\ currentVolume (engine w1) = default 0.3%Q v
  /\ startNoise t2 v2 w1 = (Normal tt, w1).
Proof.
  intros Hp Hc. unfold run, completion.
  destruct (startNoise_cases t v w)
    as [[Hp' _]|[(_ & Hc' & _)|(_ & _ & b & E & _)]]; [congruence..|].
  rewrite E. cbv zeta. simpl. split; [|split; [|split; [|split]]]; try reflexivity.
Qed.

Lemma second_start_is_noop_witness :
  let w1 := run (startNoise (Some "pink") (Some 0.5%Q)) desktop in
  currentNoiseType (engine w1) = "pink"
  /\ startNoise (Some "white") (Some 1%Q) w1 = (Normal tt, w1).
Proof.
  destruct (second_start_is_noop desktop (Some "pink") (Some "white")
              (Some 0.5%Q) (Some 1%Q) eq_refl eq_refl)
    as (_ & _ & Hty & _ & Hnoop).
  split; [exact Hty | exact Hnoop].
Defined.

(** ** [stop] *)

(** C5: [stopBrownNoise] never throws, whatever state the platform has put
    the source nodes in: a [source.stop()] that throws is caught. It leaves
    the playing flag false; from a playing engine it leaves the three session
    arrays empty and no source of the old session playing, and from an idle
    engine it leaves the world as it is. A second [stop] right after
    completes normally and changes nothing. *)
Theorem stop_is_safe_and_idempotent (w : World) :
  let w1 := run stopBrownNoise w in
  completion stopBrownNoise w = Normal tt
  /\ isPlaying (engine w1) = false
  /\ (if isPlaying (engine w)
      then bufferSources (engine w1) = []
           /\ gainNodes (engine w1) = []
           /\ filterNodes (engine w1) = []
           /\ forall c1, audioContext (engine w1) = Some c1 ->
                Forall (fun i => isPlayingNode c1 i = false) (bufferSources (engine w))
      else w1 = w)
  /\ stopBrownNoise w1 = (Normal tt, w1).
Proof.
  unfold run, completion. cbv zeta. rewrite stopBrownNoise_run. simpl.
  destruct (isPlaying (engine w)) eqn:Hp.
  - split; [reflexivity|]. split; [reflexivity|]. split.
    + split; [reflexivity|]. split; [reflexivity|]. split; [reflexivity|].
      simpl. intros c1 Hc1.
      destruct (audioContext (engine w)) as [c|]; [|discriminate].
      injection Hc1 as <-. apply haltAll_silent.
    + by rewrite stopBrownNoise_run.
  - rewrite Hp. split; [reflexivity|]. split; [reflexivity|]. split; [reflexivity|].
    by rewrite stopBrownNoise_run, Hp.
Qed.

(** The platform ends a source node on its own. *)
Definition platformEndsSource (i : nat) (w : World) : World :=
  onEngineContext
    (fun c => set_sourceStore
                (alterAt (fun s => mkSource (buffer s) (loop s) finished) i (sourceStore c)) c)
    w.

(** A world in which the catch is exercised: the platform has ended the
    session's source, [source.stop()] throws, and [stopBrownNoise] still
    completes normally and clears the session. *)
Example stop_swallows_already_stopped :
  let w := platformEndsSource 0 (run (startNoise (Some "brown") None) desktop) in
  isPlaying (engine w) = true
  /\ completion (sourceStop 0) w = Throw InvalidStateError
  /\ completion stopBrownNoise w = Normal tt
  /\ isPlaying (engine (run stopBrownNoise w)) = false
  /\ bufferSources (engine (run stopBrownNoise w)) = [].
Proof. repeat split; reflexivity. Qed.

(** ** [changeType] on an idle engine *)

(** C10: [changeNoiseType t] on an idle engine completes normally and leaves
    the whole world unchanged; in particular the stored noise type is still
    the previous one, whereas [setBrownNoiseVolume] does overwrite the stored
    volume on an idle engine; and a later [start] behaves as if [changeType]
    had not been called. *)
Theorem changeType_idle_changes_nothing (w : World) (t : option string) :
  isPlaying (engine w) = false ->
  changeNoiseType t w = (Normal tt, w)
  /\ currentNoiseType (engine (run (changeNoiseType t) w)) = currentNoiseType (engine w)
  /\ (forall v, currentVolume (engine (run (setBrownNoiseVolume v) w)) = v)
  /\ (forall t' v', startNoise t' v' (run (changeNoiseType t) w) = startNoise t' v' w).
Proof.
  intros Hp. unfold run. rewrite changeNoiseType_run, Hp. simpl.
  repeat split. intros v. by rewrite setBrownNoiseVolume_run.
Qed.

Lemma changeType_idle_changes_nothing_witness :
  changeNoiseType (Some "pink") desktop = (Normal tt, desktop)
  /\ currentNoiseType (engine (run (changeNoiseType (Some "pink")) desktop)) = "brown".
Proof.
  destruct (changeType_idle_changes_nothing desktop (Some "pink") eq_refl)
    as (Hnoop & Hty & _).
  split; [exact Hnoop | exact Hty].
Defined.

(** ** [changeType] while playing *)

Lemma isPlayingNode_old c x i :
  i < length (sourceStore c) ->
  isPlayingNode (set_sourceStore (sourceStore c ++ [x]) c) i = isPlayingNode c i.
Proof. intros Hi. unfold isPlayingNode. simpl. by rewrite lookup_app_l. Qed.

(** C3: [changeNoiseType] is [stopBrownNoise] followed by [startNoise] with
    the new type and the stored volume when the engine is playing, and does
    nothing otherwise. In particular, on a well-formed engine playing 'brown'
    (two filter nodes), [changeType('white')] completes normally and leaves
    the engine playing 'white' at the same volume, with a new source and a new
    gain node, both created after every node of the old session, linked
    source to gain to output with no filter in between and no filter node
    created, while the source of the old session has stopped playing. *)
Theorem changeType_is_stop_then_start (w : World) (t : option string) :
  changeNoiseType t w
  = (if isPlaying (engine w)
     then (stopBrownNoise ;; startNoise t (Some (currentVolume (engine w))))%engine w
     else (Normal tt, w))
  /\ (wellFormed w ->
      isPlaying (engine w) = true ->
      currentNoiseType (engine w) = "brown" ->
      let w' := run (changeNoiseType (Some "white")) w in
      completion (changeNoiseType (Some "white")) w = Normal tt
      /\ isPlaying (engine w') = true
      /\ currentNoiseType (engine w') = "white"
      /\ currentVolume (engine w') = currentVolume (engine w)
      /\ length (filterNodes (engine w)) = 2
      /\ filterNodes (engine w') = []
      /\ exists c c' s s' g g',
           audioContext (engine w) = Some c
           /\ audioContext (engine w') = Some c'
           /\ bufferSources (engine w) = [s] /\ bufferSources (engine w') = [s']
           /\ gainNodes (engine w) = [g] /\ gainNodes (engine w') = [g']
           /\ s' = length (sourceStore c) /\ g' = length (gainStore c)
           /\ s <> s' /\ g <> g'
           /\ isPlayingNode c' s = false /\ isPlayingNode c' s' = true
           /\ length (filterStore c') = length (filterStore c)
           /\ connections c'
              = connections c ++ [(SourceRef s', GainRef g'); (GainRef g', Destination)]).
Proof.
  split.
  - rewrite changeNoiseType_run.
    destruct (isPlaying (engine w)) eqn:Hp; [|reflexivity].
    erewrite bind_normal by (rewrite stopBrownNoise_run, Hp; reflexivity).
    reflexivity.
  - intros Hw Hp Hty. unfold run, completion. cbv zeta.
    rewrite changeNoiseType_run, Hp.
    unfold wellFormed in Hw. rewrite Hp in Hw.
    destruct Hw as (c & s & g & Hc & Hbs & Hgs & Hs & Hg & _ & Hn).
    rewrite Hty in Hn.
    set (w0 := mkWorld (stoppedEngine (engine w)) (host w)).
    destruct (startNoise_cases (Some "white") (Some (currentVolume (engine w))) w0)
      as [[Hp' _]|[(_ & Hc' & _)|(_ & _ & b & -> & _)]].
    { discriminate. }
    { unfold canStart, w0 in Hc'. simpl in Hc'. rewrite Hc in Hc'. discriminate. }
    unfold w0, contextAfterInit. simpl. rewrite Hc, Hbs, Hgs. simpl.
    destruct (haltAll_frame [s] c) as (_ & _ & _ & Hlen & Hgains & Hfilters & Hconns).
    simpl in Hlen, Hgains, Hfilters, Hconns.
    repeat (split; [reflexivity || exact Hn|]).
    eexists c, _, s, _, g, _.
    repeat (split; [reflexivity|]).
    pose proof (haltSource_silent s c) as Hsilent.
    unfold startedContext, isPlayingNode in *. simpl.
    rewrite lookup_app_l by lia. rewrite lookup_new.
    rewrite Hlen, Hgains, Hfilters, Hconns, app_nil_r.
    repeat split; try lia. exact Hsilent.
Qed.

(** A fresh desktop page on which [start('brown')] has been called. *)
Definition brownSession : World := run (startNoise (Some "brown") None) desktop.

Lemma changeType_is_stop_then_start_witness :
  let w' := run (changeNoiseType (Some "white")) brownSession in
  isPlaying (engine w') = true
  /\ length (filterNodes (engine brownSession)) = 2
  /\ filterNodes (engine w') = [].
Proof.
  assert (Hw : wellFormed brownSession) by (apply checkWellFormed_sound; reflexivity).
  destruct (changeType_is_stop_then_start brownSession (Some "white")) as [_ H].
  destruct (H Hw eq_refl eq_refl) as (_ & Hp & _ & _ & Hold & Hnew & _).
  split; [exact Hp|]. split; [exact Hold | exact Hnew].
Defined.

(** ** The stored volume *)

(** The gain values of the live gain nodes, read from the context's store. *)
Definition sessionGains (e : Engine) : list (option Q) :=
  match audioContext e with
  | Some c => map (fun g => gain <$> gainStore c !! g) (gainNodes e)
  | None => []
  end.

Lemma alterAt_lookup {A} (f : A -> A) i (l : list A) :
  i < length l -> alterAt f i l !! i = f <$> l !! i.
Proof.
  intros Hi. unfold alterAt.
  destruct (l !! i) as [x|] eqn:Hx; [|by rewrite Hx].
  by rewrite list_lookup_insert_eq.
Qed.

(** The reading of C6: after [setVolume(v)] on an idle engine, a following
    [start()] builds its gain stage from the stored volume [v]. *)
Definition startUsesStoredVolume (w : World) (v : Q) (t : option string) (v2 : option Q)
  : Prop :=
  sessionGains (engine (run (startNoise t v2) (run (setBrownNoiseVolume v) w))) = [Some v].

(** C6, as stated, fails: on a fresh page [setVolume(0.8)] stores 0.8, but a
    following [start()] builds the gain stage with its own default 0.3, and
    [start('brown', 0.5)] with its argument 0.5; either call overwrites the
    stored volume. *)
Lemma start_ignores_stored_volume :
  let w1 := run (setBrownNoiseVolume 0.8%Q) desktop in
  currentVolume (engine w1) = 0.8%Q
  /\ sessionGains (engine (run (startNoise None None) w1)) = [Some 0.3%Q]
  /\ currentVolume (engine (run (startNoise None None) w1)) = 0.3%Q
  /\ sessionGains (engine (run (startNoise (Some "brown") (Some 0.5%Q)) w1)) = [Some 0.5%Q]
  /\ ~ startUsesStoredVolume desktop 0.8%Q None None
  /\ ~ startUsesStoredVolume desktop 0.8%Q (Some "brown") (Some 0.5%Q).
Proof.
  split; [reflexivity|]. split; [reflexivity|]. split; [reflexivity|].
  split; [reflexivity|]. split.
  - unfold startUsesStoredVolume. intros H.
    change ([Some 0.3%Q] = [Some 0.8%Q]) in H. discriminate.
  - unfold startUsesStoredVolume. intros H.
    change ([Some 0.5%Q] = [Some 0.8%Q]) in H. discriminate.
Qed.

Lemma revolumed_idle v w :
  wellFormed w -> isPlaying (engine w) = false ->
  run (setBrownNoiseVolume v) w = mkWorld (set_currentVolume v (engine w)) (host w).
Proof.
  intros Hw Hp. unfold run. rewrite setBrownNoiseVolume_run. simpl.
  unfold wellFormed in Hw. rewrite Hp in Hw. destruct Hw as (_ & Hgs & _).
  unfold revolumedEngine, set_currentVolume. rewrite Hgs. simpl.
  by destruct (audioContext (engine w)).
Qed.

(** C6, amended: [setVolume(v)] always stores [v] as the current volume,
    playing or not, and a playing session's gain node takes the value [v] at
    once. The stored volume is what a following [changeType] while playing
    builds the new session's gain stage from. A following [start(type,
    volume)] on an idle engine builds the gain stage from its own [volume]
    argument, 0.3 when omitted, and overwrites the stored volume with it. *)
Theorem setVolume_stores_volume (w : World) (v : Q) :
  let w1 := run (setBrownNoiseVolume v) w in
  currentVolume (engine w1) = v
  /\ (wellFormed w ->
      (isPlaying (engine w) = true ->
         sessionGains (engine w1) = [Some v]
         /\ forall t,
              let w2 := run (changeNoiseType t) w1 in
              sessionGains (engine w2) = [Some v] /\ currentVolume (engine w2) = v)
      /\ (isPlaying (engine w) = false -> canStart w = true ->
          forall t v2,
            let w2 := run (startNoise t v2) w1 in
            sessionGains (engine w2) = [Some (default 0.3%Q v2)]
            /\ currentVolume (engine w2) = default 0.3%Q v2)).
Proof.
  cbv zeta. split.
  { unfold run. by rewrite setBrownNoiseVolume_run. }
  intros Hw. split.
  - intros Hp.
    pose proof (wellFormed_setVolume v w Hw) as Hw1.
    unfold run in *. rewrite setBrownNoiseVolume_run in *. simpl in *.
    unfold wellFormed in Hw. rewrite Hp in Hw.
    destruct Hw as (c & s & g & Hc & Hbs & Hgs & Hs & Hg & _ & _).
    split.
    + unfold sessionGains. simpl. rewrite Hc, Hgs. simpl.
      rewrite alterAt_lookup by assumption.
      apply lookup_lt_is_Some in Hg. destruct Hg as [x ->]. reflexivity.
    + intros t. rewrite changeNoiseType_run. simpl. rewrite Hp.
      set (w0 := mkWorld _ _).
      destruct (startNoise_cases t (Some v) w0)
        as [[Hp' _]|[(_ & Hc' & _)|(_ & _ & b & -> & _)]].
      { discriminate. }
      { unfold canStart, w0 in Hc'. simpl in Hc'. rewrite Hc in Hc'. discriminate. }
      unfold sessionGains, contextAfterInit, w0. simpl. rewrite Hc. simpl.
      rewrite lookup_new. by split.
  - intros Hp Hc t v2. rewrite (revolumed_idle v w Hw Hp).
    set (w0 := mkWorld _ _).
    destruct (startNoise_cases t v2 w0)
      as [[Hp' _]|[(_ & Hc' & _)|(_ & _ & b & E & _)]].
    { unfold w0 in Hp'. simpl in Hp'. congruence. }
    { unfold canStart, w0 in *. simpl in *. congruence. }
    unfold run. rewrite E.
    unfold wellFormed in Hw. rewrite Hp in Hw. destruct Hw as (_ & Hgs & _).
    unfold sessionGains, w0. simpl. rewrite Hgs. simpl. rewrite lookup_new. by split.
Qed.

Lemma setVolume_stores_volume_witness :
  (let w2 := run (changeNoiseType (Some "pink")) (run (setBrownNoiseVolume 0.8%Q) brownSession) in
   sessionGains (engine w2) = [Some 0.8%Q])
  /\ (let w2 := run (startNoise (Some "pink") (Some 0.5%Q))
                  (run (setBrownNoiseVolume 0.8%Q) desktop) in
      sessionGains (engine w2) = [Some 0.5%Q]).
Proof.
  split.
  - assert (Hw : wellFormed brownSession) by (apply checkWellFormed_sound; reflexivity).
    destruct (setVolume_stores_volume brownSession 0.8%Q) as [_ H].
    destruct (H Hw) as [Hplaying _].
    destruct (Hplaying eq_refl) as [_ Hchange].
    exact (proj1 (Hchange (Some "pink"))).
  - assert (Hw : wellFormed desktop) by (apply checkWellFormed_sound; reflexivity).
    destruct (setVolume_stores_volume desktop 0.8%Q) as [_ H].
    destruct (H Hw) as [_ Hidle].
    exact (proj1 (Hidle eq_refl eq_refl (Some "pink") (Some 0.5%Q))).
Defined.

(** C7: for a volume in [0, 1] (and in fact for any), [setBrownNoiseVolume]
    leaves the playing flag as it was, so [isBrownNoisePlaying] answers the
    same before and after; the three session arrays, the stored type and the
    host page are unchanged; no context is created or dropped; and in the
    context no node is created, removed, started or stopped and no link is
    changed: only gain values are written. *)
Theorem setVolume_keeps_playback (w : World) (v : Q) :
  (0 <= v)%Q -> (v <= 1)%Q ->
  let w' := run (setBrownNoiseVolume v) w in
  completion isBrownNoisePlaying w' = completion isBrownNoisePlaying w
  /\ isPlaying (engine w') = isPlaying (engine w)
  /\ bufferSources (engine w') = bufferSources (engine w)
  /\ gainNodes (engine w') = gainNodes (engine w)
  /\ filterNodes (engine w') = filterNodes (engine w)
  /\ currentNoiseType (engine w') = currentNoiseType (engine w)
  /\ host w' = host w
  /\ match audioContext (engine w), audioContext (engine w') with
     | Some c, Some c' =>
         sourceStore c' = sourceStore c
         /\ length (gainStore c') = length (gainStore c)
         /\ filterStore c' = filterStore c
         /\ connections c' = connections c
         /\ state c' = state c
     | None, None => True
     | _, _ => False
     end.
Proof.
  intros _ _. unfold run, completion. cbv zeta.
  rewrite setBrownNoiseVolume_run. simpl.
  repeat (split; [reflexivity|]).
  destruct (audioContext (engine w)) as [c|]; [|exact I]. simpl.
  destruct (setGains_frame v (gainNodes (engine w)) c) as (_ & ? & _ & ? & ? & ? & ?).
  by repeat split.
Qed.

Lemma setVolume_keeps_playback_witness :
  isPlaying (engine (run (setBrownNoiseVolume 0.5%Q) brownSession)) = true
  /\ isPlaying (engine (run (setBrownNoiseVolume 0.5%Q) desktop)) = false.
Proof.
  assert (H0 : (0 <= 0.5)%Q) by (unfold Qle; simpl; lia).
  assert (H1 : (0.5 <= 1)%Q) by (unfold Qle; simpl; lia).
  split.
  - destruct (setVolume_keeps_playback brownSession 0.5%Q H0 H1) as (_ & Hp & _).
    rewrite Hp. reflexivity.
  - destruct (setVolume_keeps_playback desktop 0.5%Q H0 H1) as (_ & Hp & _).
    rewrite Hp. reflexivity.
Defined.

(** ** The white-noise buffer *)

(** C8: on an engine that has its context, and with [Math.random] keeping
    its contract, [generateWhiteNoiseBuffer] completes normally for every
    sample rate and every duration (2 when omitted) with a one-channel buffer
    of exactly [sampleRate * duration] samples, every sample in [-1, 1]; it
    leaves the engine as it was, and of the host only the count of random
    draws moves. Numbers are exact rationals here: the rounding of the
    platform's floats is not modelled. *)
Theorem generateWhiteNoiseBuffer_spec (w : World) (c : AudioContext) (duration : option nat) :
  audioContext (engine w) = Some c ->
  randomInUnitInterval (host w) ->
  let size := sampleRate c * default 2 duration in
  exists b,
    completion (generateWhiteNoiseBuffer duration) w = Normal b
    /\ numberOfChannels b = 1
    /\ bufferLength b = size
    /\ bufferSampleRate b = sampleRate c
    /\ length (channelData b) = size
    /\ Forall inRange (channelData b)
    /\ engine (run (generateWhiteNoiseBuffer duration) w) = engine w
    /\ host (run (generateWhiteNoiseBuffer duration) w)
       = set_randomDraws (size + randomDraws (host w)) (host w).
Proof.
  intros Hc Hr. cbv zeta.
  destruct (generateWhiteNoiseBuffer_run duration w c Hc)
    as (b & E & (Hch & Hlen & Hrate & Hdata) & Hrange).
  exists b. unfold run, completion. rewrite E. simpl.
  repeat split; auto.
Qed.

Lemma generateWhiteNoiseBuffer_spec_witness :
  exists b,
    completion (generateWhiteNoiseBuffer (Some 3)) (afterInit desktop) = Normal b
    /\ length (channelData b) = deviceSampleRate desktopHost * 3
    /\ Forall inRange (channelData b).
Proof.
  assert (Hr : randomInUnitInterval (host (afterInit desktop))).
  { intros n. simpl. unfold halfRandom, Qle, Qlt. simpl.
    pose proof (Nat.mod_upper_bound n 8). lia. }
  destruct (generateWhiteNoiseBuffer_spec (afterInit desktop) (freshContext desktopHost)
              (Some 3) eq_refl Hr)
    as (b & E & _ & _ & _ & Hlen & Hrange & _).
  exists b. split; [exact E|]. split; [exact Hlen | exact Hrange].
Defined.

(** The older brown-noise module of the repository fills each of its band
    buffers with the same statements, written inline. *)
Module Legacy.

Definition bandBuffer : M AudioBuffer :=
  rate <- onContext (fun c => (Normal (sampleRate c), c)) ;;
  let bufferSize := rate * 2 in
  let buffer := createBuffer 1 bufferSize rate in
  data <- fillNoise bufferSize 0 (channelData buffer) ;;
  ret (mkAudioBuffer (numberOfChannels buffer) (bufferLength buffer)
                     (bufferSampleRate buffer) data).

Lemma bandBuffer_is_generator : bandBuffer = generateWhiteNoiseBuffer None.
Proof. reflexivity. Qed.

End Legacy.

(** ** The page lifecycle *)

(** C9: the listener of the page becoming hidden completes normally and
    leaves the engine exactly as it was: playing flag, stored type and
    volume, session arrays and the whole context with its nodes (it only
    writes a console line while playing). The listener of the page becoming
    visible keeps the session too; at most it obtains a context or queues a
    resume. Of the three lifecycle signals only the unload runs
    [stopBrownNoise], after which nothing is playing. *)
Theorem hidden_page_keeps_playing (w : World) :
  completion (dispatch PageHidden) w = Normal tt
  /\ engine (run (dispatch PageHidden) w) = engine w
  /\ sameSession (engine w) (engine (run (dispatch PageShown) w))
  /\ dispatch PageUnload w = stopBrownNoise w
  /\ forall ev,
       isPlaying (engine (run (dispatch ev) w))
       = match ev with
         | PageUnload => false
         | _ => isPlaying (engine w)
         end.
Proof.
  unfold run, completion. rewrite dispatch_hidden_run. simpl.
  split; [reflexivity|]. split; [reflexivity|].
  split; [apply dispatch_shown_sameSession|]. split; [reflexivity|].
  intros [ | | ].
  - by rewrite dispatch_hidden_run.
  - destruct (dispatch_shown_sameSession w) as (_ & _ & _ & H & _). exact H.
  - rewrite dispatch_unload_run, stopBrownNoise_run. simpl.
    by destruct (isPlaying (engine w)) eqn:Hp.
Qed.

(** On the hidden page the session goes on: source playing, nodes in place,
    one console line written. *)
Example hidden_page_on_brownSession :
  let w' := run (dispatch PageHidden) brownSession in
  engine w' = engine brownSession
  /\ isPlaying (engine w') = true
  /\ consoleLog (host w') = [backgroundNote]
  /\ isPlaying (engine (run (dispatch PageUnload) brownSession)) = false.
Proof.
  cbv zeta. split.
  - unfold run. by rewrite dispatch_hidden_run.
  - split; [|split]; reflexivity.
Qed.

(** * Further properties of the module *)

(** ** [initAudioContext] *)

Definition resumeListeners : list (string * Listener) :=
  [("click", ResumeContext); ("touchstart", ResumeContext)].

(** X1: [initAudioContext] creates the context at most once. A call on an engine
    that has its context changes nothing. On a host without an audio
    constructor it throws and changes nothing. Otherwise it stores a new
    context with an empty graph, and registers the click and touchstart
    resume listeners exactly when that context starts suspended. The session
    arrays, the flag, the stored volume and type are never touched, and a
    second call right after the first completes the same way and changes
    nothing more. *)
Theorem initAudioContext_creates_once (w : World) :
  let w1 := run initAudioContext w in
  (forall c, audioContext (engine w) = Some c -> initAudioContext w = (Normal tt, w))
  /\ (audioContext (engine w) = None -> audioSupported (host w) = false ->
      initAudioContext w = (Throw TypeError, w))
  /\ (audioContext (engine w) = None -> audioSupported (host w) = true ->
      completion initAudioContext w = Normal tt
      /\ audioContext (engine w1) = Some (freshContext (host w))
      /\ documentListeners (host w1)
         = documentListeners (host w)
           ++ (if autoplayBlocked (host w) then resumeListeners else []))
  /\ set_audioContext (audioContext (engine w)) (engine w1) = engine w
  /\ initAudioContext w1 = (completion initAudioContext w, w1).
Proof.
  cbv zeta. unfold run, completion.
  split; [|split; [|split; [|split]]].
  - intros c Hc. rewrite initAudioContext_run. unfold canStart. rewrite Hc.
    destruct w as [[ctx bs gs fs pl vol ty] h]. simpl in *. by subst.
  - intros Hc Hs. rewrite initAudioContext_run. unfold canStart. by rewrite Hc, Hs.
  - intros Hc Hs. rewrite initAudioContext_run. unfold canStart. rewrite Hc, Hs.
    destruct w as [[ctx bs gs fs pl vol ty] [sup drate blocked rs rd hid ls log]].
    simpl in *. subst. split; [reflexivity|]. split; [reflexivity|].
    unfold hostAfterInit. simpl. destruct blocked; simpl; [reflexivity|].
    by rewrite app_nil_r.
  - rewrite (initAudioContext_run w).
    destruct (canStart w); cbn [fst snd]; by destruct w as [[] ?].
  - rewrite (initAudioContext_run w).
    destruct (canStart w) eqn:Hc; cbn [fst snd].
    + by rewrite initAudioContext_run, canStart_afterInit, afterInit_idem.
    + by rewrite initAudioContext_run, Hc.
Qed.

(** ** [startNoise]: failure, unknown types, resuming *)

(** X2: A [startNoise] that cannot obtain a context throws before it writes
    anything: the stored volume and type, the arrays, the flag and the host
    are all as before, whatever the arguments. *)
Theorem failed_start_writes_nothing (w : World) (t : option string) (v : option Q) :
  isPlaying (engine w) = false ->
  canStart w = false ->
  startNoise t v w = (Throw TypeError, w).
Proof. intros Hp Hc. by rewrite startNoise_afterInit, Hc. Qed.

(** A page whose browser has no audio constructor. *)
Definition silentHost : Host :=
  {| audioSupported := false;
     deviceSampleRate := 441 * 100;
     autoplayBlocked := false;
     randomSource := halfRandom;
     randomDraws := 0;
     documentHidden := false;
     documentListeners := [];
     consoleLog := [] |}.

Lemma failed_start_writes_nothing_witness :
  startNoise (Some "pink") (Some 0.9%Q) (initialWorld silentHost)
  = (Throw TypeError, initialWorld silentHost).
Proof.
  exact (failed_start_writes_nothing (initialWorld silentHost) (Some "pink") (Some 0.9%Q)
           eq_refl eq_refl).
Defined.

(** X3: A noise type other than 'white', 'pink' and 'brown' falls through all
    three branches: the call still completes normally and the engine reports
    playing with the type stored as given, but no filter is created and the
    only link added is gain node to output. Nothing is connected to the new
    source's output, so the session is silent. *)
Theorem unknown_type_starts_unconnected (w : World) (t : string) (v : option Q) :
  wellFormed w ->
  isPlaying (engine w) = false ->
  canStart w = true ->
  t <> "white" -> t <> "pink" -> t <> "brown" ->
  let e' := engine (run (startNoise (Some t) v) w) in
  completion (startNoise (Some t) v) w = Normal tt
  /\ isPlaying e' = true
  /\ currentNoiseType e' = t
  /\ filterNodes e' = []
  /\ exists s g,
       bufferSources e' = [s] /\ gainNodes e' = [g]
       /\ contextConnections e'
          = connections (contextAfterInit w) ++ [(GainRef g, Destination)].
Proof.
  intros Hw Hp Hc Hwhite Hpink Hbrown. unfold run, completion.
  destruct (startNoise_cases (Some t) v w)
    as [[Hp' _]|[(_ & Hc' & _)|(_ & _ & b & -> & _)]]; [congruence..|].
  unfold wellFormed in Hw. rewrite Hp in Hw. destruct Hw as (Hbs & Hgs & Hfs).
  cbv zeta. unfold contextConnections. simpl.
  rewrite Hbs, Hgs, Hfs. unfold builtFilters, builtLinks.
  apply String.eqb_neq in Hwhite, Hpink, Hbrown. rewrite Hwhite, Hpink, Hbrown. simpl.
  repeat (split; [reflexivity|]). eexists _, _. by repeat split.
Qed.

Lemma unknown_type_starts_unconnected_witness :
  let e' := engine (run (startNoise (Some "violet") None) desktop) in
  isPlaying e' = true /\ filterNodes e' = []
  /\ contextConnections e' = [(GainRef 0, Destination)].
Proof.
  assert (Hw : wellFormed desktop) by (apply checkWellFormed_sound; reflexivity).
  destruct (unknown_type_starts_unconnected desktop "violet" None Hw eq_refl eq_refl)
    as (_ & Hp & _ & Hf & _); [discriminate..|].
  split; [exact Hp|]. split; [exact Hf | reflexivity].
Defined.

(** X4: [startNoise] asks a suspended context to resume, once, and never changes
    the context's state itself; a context that is not suspended gets no
    request. On a host that blocks autoplay, the first start therefore leaves
    a suspended context with one pending resume and the two resume
    listeners. *)
Theorem start_resumes_suspended_context (w : World) (t : option string) (v : option Q) :
  isPlaying (engine w) = false ->
  canStart w = true ->
  let c0 := contextAfterInit w in
  exists c',
    audioContext (engine (run (startNoise t v) w)) = Some c'
    /\ state c' = state c0
    /\ sampleRate c' = sampleRate c0
    /\ pendingResumes c'
       = match state c0 with
         | suspended => S (pendingResumes c0)
         | _ => pendingResumes c0
         end
    /\ documentListeners (host (run (startNoise t v) w))
       = documentListeners (hostAfterInit w).
Proof.
  intros Hp Hc. unfold run.
  destruct (startNoise_cases t v w)
    as [[Hp' _]|[(_ & Hc' & _)|(_ & _ & b & -> & _)]]; [congruence..|].
  eexists. by repeat split.
Qed.

(** A phone page: audio is there, but a new context starts suspended. *)
Definition phoneHost : Host :=
  {| audioSupported := true;
     deviceSampleRate := 480 * 100;
     autoplayBlocked := true;
     randomSource := halfRandom;
     randomDraws := 0;
     documentHidden := false;
     documentListeners := [];
     consoleLog := [] |}.

Lemma start_resumes_suspended_context_witness :
  exists c',
    audioContext (engine (run (startNoise None None) (initialWorld phoneHost))) = Some c'
    /\ state c' = suspended
    /\ pendingResumes c' = 1
    /\ documentListeners (host (run (startNoise None None) (initialWorld phoneHost)))
       = resumeListeners.
Proof.
  destruct (start_resumes_suspended_context (initialWorld phoneHost) None None
              eq_refl eq_refl)
    as (c' & Hc & Hs & _ & Hr & Hl).
  exists c'. split; [exact Hc|]. split; [exact Hs|]. split; [exact Hr | exact Hl].
Defined.

(** ** The visible page *)

Definition resumeIfSuspended (c : AudioContext) : AudioContext :=
  match state c with
  | suspended => set_pendingResumes (S (pendingResumes c)) c
  | _ => c
  end.

Lemma dispatch_shown_run w :
  (isPlaying (engine w) = false ->
   dispatch PageShown w
   = (Normal tt, mkWorld (engine w) (set_documentHidden false (host w))))
  /\ (forall c, isPlaying (engine w) = true -> audioContext (engine w) = Some c ->
      dispatch PageShown w
      = (Normal tt,
         mkWorld (set_audioContext (Some (resumeIfSuspended c)) (engine w))
                 (set_documentHidden false (host w)))).
Proof.
  destruct w as [[ctx bs gs fs pl vol ty] [sup drate blocked rs rd hid ls log]].
  unfold dispatch, onVisibilityChange. simpl. split.
  - intros ->. reflexivity.
  - intros [rate st pr ss gstore fstore conns] -> ->. by destruct st.
Qed.

(** X5: The listener of the page becoming visible never throws on an engine that
    has its context or is idle, does nothing to an idle engine (it does not
    even create a context), leaves a playing engine whose context is not
    suspended exactly as it is, and queues one resume on a suspended context
    of a playing engine, changing nothing else. *)
Theorem visible_page_resumes_only_suspended (w : World) :
  let w' := run (dispatch PageShown) w in
  documentHidden (host w') = false
  /\ (isPlaying (engine w) = false ->
      completion (dispatch PageShown) w = Normal tt /\ engine w' = engine w)
  /\ (forall c, isPlaying (engine w) = true -> audioContext (engine w) = Some c ->
      completion (dispatch PageShown) w = Normal tt
      /\ engine w' = set_audioContext (Some (resumeIfSuspended c)) (engine w)
      /\ (state c <> suspended -> engine w' = engine w)
      /\ (state c = suspended ->
          pendingResumes (resumeIfSuspended c) = S (pendingResumes c)
          /\ sameGraph c (resumeIfSuspended c)
          /\ state (resumeIfSuspended c) = suspended)).
Proof.
  cbv zeta. unfold run, completion.
  destruct (dispatch_shown_run w) as [Hidle Hplaying].
  split; [|split].
  - destruct w as [[ctx bs gs fs pl vol ty] [sup drate blocked rs rd hid ls log]].
    unfold dispatch, onVisibilityChange. simpl. destruct pl; [|reflexivity].
    destruct ctx as [[rate st pr ss gstore fstore conns]|].
    + by destruct st.
    + unfold bind, initAudioContext, readVar, newAudioContext, bind. simpl.
      destruct sup; [|reflexivity]. by destruct blocked.
  - intros Hp. by rewrite (Hidle Hp).
  - intros c Hp Hc. rewrite (Hplaying c Hp Hc). simpl.
    split; [reflexivity|]. split; [reflexivity|]. split.
    + intros Hs. unfold resumeIfSuspended.
      destruct w as [[ctx bs gs fs pl vol ty] h]. simpl in *. subst.
      by destruct (state c).
    + intros Hs. unfold resumeIfSuspended. rewrite Hs. by repeat split.
Qed.

(** ** What [stop] leaves in the context *)

(** X6: [stopBrownNoise] removes nothing from the audio graph: the links, the
    gain nodes and the filter nodes of the context are exactly as before and
    no source node is dropped; it only ends sources. The stored volume and
    type are kept. Nodes are never disconnected, so every session leaves its
    nodes and links behind in the context. *)
Theorem stop_keeps_graph (w : World) :
  let e' := engine (run stopBrownNoise w) in
  currentVolume e' = currentVolume (engine w)
  /\ currentNoiseType e' = currentNoiseType (engine w)
  /\ host (run stopBrownNoise w) = host w
  /\ match audioContext (engine w), audioContext e' with
     | Some c, Some c' =>
         connections c' = connections c
         /\ gainStore c' = gainStore c
         /\ filterStore c' = filterStore c
         /\ length (sourceStore c') = length (sourceStore c)
         /\ state c' = state c
         /\ forall i, isPlayingNode c i = false -> isPlayingNode c' i = false
     | None, None => True
     | _, _ => False
     end.
Proof.
  cbv zeta. unfold run. rewrite stopBrownNoise_run. simpl.
  destruct (isPlaying (engine w)); simpl.
  - repeat (split; [reflexivity|]).
    destruct (audioContext (engine w)) as [c|]; [|exact I]. simpl.
    destruct (haltAll_frame (bufferSources (engine w)) c) as (_ & ? & _ & ? & ? & ? & ?).
    repeat split; try assumption. intros i. apply haltAll_keeps_silent.
  - repeat (split; [reflexivity|]).
    destruct (audioContext (engine w)) as [c|]; [|exact I]. by repeat split.
Qed.

(** ** No sound outside the session *)

(** What reaches the module: a call of a public operation or a lifecycle
    signal of the page. *)
Inductive Stimulus :=
| Call (op : Operation)
| Signal (ev : LifecycleEvent).

Definition react (s : Stimulus) : M unit :=
  match s with
  | Call op => perform op
  | Signal ev => dispatch ev
  end.

Fixpoint reactAll (l : list Stimulus) (w : World) : World :=
  match l with
  | [] => w
  | s :: rest => reactAll rest (run (react s) w)
  end.

(** Every source node that is playing belongs to the session. *)
Definition onlySessionPlays (w : World) : Prop :=
  match audioContext (engine w) with
  | Some c => forall i, isPlayingNode c i = true -> In i (bufferSources (engine w))
  | None => True
  end.

Lemma isPlayingNode_in_store c i : isPlayingNode c i = true -> i < length (sourceStore c).
Proof.
  unfold isPlayingNode. destruct (sourceStore c !! i) eqn:Hi; [|discriminate].
  intros _. by eapply lookup_lt_Some.
Qed.

Lemma haltAll_was_playing l c i :
  isPlayingNode (haltAll l c) i = true -> isPlayingNode c i = true.
Proof.
  intros H. destruct (isPlayingNode c i) eqn:Hc; [reflexivity|].
  by rewrite (haltAll_keeps_silent l i c Hc) in H.
Qed.

Lemma onlySessionPlays_start t v w :
  wellFormed w -> onlySessionPlays w -> onlySessionPlays (run (startNoise t v) w).
Proof.
  intros Hw Ho. unfold run.
  destruct (startNoise_cases t v w)
    as [[_ ->]|[(_ & _ & ->)|(Hp & _ & b & -> & _)]]; try exact Ho.
  unfold wellFormed in Hw. rewrite Hp in Hw. destruct Hw as (Hbs & _ & _).
  unfold onlySessionPlays in *. simpl. rewrite Hbs in *. simpl.
  intros i Hi. left.
  pose proof (isPlayingNode_in_store _ _ Hi) as Hlt. simpl in Hlt.
  rewrite length_new in Hlt.
  destruct (decide (i = length (sourceStore (contextAfterInit w)))) as [->|Hne];
    [reflexivity|exfalso].
  assert (Hold : i < length (sourceStore (contextAfterInit w))) by lia.
  unfold isPlayingNode in Hi. simpl in Hi. rewrite lookup_app_l in Hi by assumption.
  unfold contextAfterInit in *.
  destruct (audioContext (engine w)) as [c|].
  - apply (Ho i). exact Hi.
  - simpl in Hold. lia.
Qed.

Lemma onlySessionPlays_stop w : onlySessionPlays w -> onlySessionPlays (run stopBrownNoise w).
Proof.
  intros Ho. unfold run. rewrite stopBrownNoise_run. simpl.
  destruct (isPlaying (engine w)); [|exact Ho].
  unfold onlySessionPlays in *. simpl.
  destruct (audioContext (engine w)) as [c|]; [|exact I]. simpl.
  intros i Hi.
  pose proof (haltAll_was_playing _ _ _ Hi) as Hwas. apply Ho in Hwas.
  pose proof (haltAll_silent (bufferSources (engine w)) c) as Hsilent.
  rewrite Forall_forall in Hsilent. apply list_elem_of_In in Hwas.
  rewrite (Hsilent i Hwas) in Hi. discriminate.
Qed.

Lemma onlySessionPlays_setVolume v w :
  onlySessionPlays w -> onlySessionPlays (run (setBrownNoiseVolume v) w).
Proof.
  intros Ho. unfold run. rewrite setBrownNoiseVolume_run. simpl.
  unfold onlySessionPlays in *. simpl.
  destruct (audioContext (engine w)) as [c|]; [|exact I]. simpl.
  destruct (setGains_frame v (gainNodes (engine w)) c) as (_ & _ & _ & Hss & _).
  unfold isPlayingNode in *. rewrite Hss. exact Ho.
Qed.

Lemma onlySessionPlays_changeType t w :
  wellFormed w -> onlySessionPlays w -> onlySessionPlays (run (changeNoiseType t) w).
Proof.
  intros Hw Ho. unfold run. rewrite changeNoiseType_run.
  destruct (isPlaying (engine w)) eqn:Hp; [|exact Ho].
  pose proof (wellFormed_stop w Hw) as Hw'.
  pose proof (onlySessionPlays_stop w Ho) as Ho'.
  unfold run in Hw', Ho'. rewrite stopBrownNoise_run, Hp in Hw', Ho'.
  exact (onlySessionPlays_start t _ _ Hw' Ho').
Qed.

Lemma onlySessionPlays_dispatch ev w :
  wellFormed w -> onlySessionPlays w -> onlySessionPlays (run (dispatch ev) w).
Proof.
  intros Hw Ho. destruct ev.
  - unfold run. rewrite dispatch_hidden_run. exact Ho.
  - destruct (dispatch_shown_run w) as [Hidle Hplaying]. unfold run.
    destruct (isPlaying (engine w)) eqn:Hp.
    + unfold wellFormed in Hw. rewrite Hp in Hw. destruct Hw as (c & s & g & Hc & _).
      rewrite (Hplaying c eq_refl Hc). unfold onlySessionPlays in *. simpl.
      rewrite Hc in Ho. intros i Hi. apply Ho.
      unfold isPlayingNode, resumeIfSuspended in *. by destruct (state c).
    + rewrite (Hidle eq_refl). exact Ho.
  - by apply onlySessionPlays_stop.
Qed.

(** Whether source node [i] of the engine's context is playing. *)
Definition sourceIsPlaying (e : Engine) (i : nat) : bool :=
  match audioContext e with
  | Some c => isPlayingNode c i
  | None => false
  end.

(** The sources of the session are playing. *)
Definition sessionPlays (w : World) : Prop :=
  forall i, In i (bufferSources (engine w)) -> sourceIsPlaying (engine w) i = true.

Lemma sessionPlays_start t v w :
  wellFormed w -> sessionPlays w -> sessionPlays (run (startNoise t v) w).
Proof.
  intros Hw Hs. unfold run.
  destruct (startNoise_cases t v w)
    as [[_ ->]|[(_ & _ & ->)|(Hp & _ & b & -> & _)]]; try exact Hs.
  unfold wellFormed in Hw. rewrite Hp in Hw. destruct Hw as (Hbs & _ & _).
  unfold sessionPlays, sourceIsPlaying, isPlayingNode. simpl. rewrite Hbs. simpl.
  intros i [<-|[]]. by rewrite lookup_new.
Qed.

Lemma sessionPlays_stop w : sessionPlays w -> sessionPlays (run stopBrownNoise w).
Proof.
  intros Hs. unfold run. rewrite stopBrownNoise_run. simpl.
  destruct (isPlaying (engine w)); [|exact Hs]. by intros i [].
Qed.

Lemma sessionPlays_setVolume v w :
  sessionPlays w -> sessionPlays (run (setBrownNoiseVolume v) w).
Proof.
  intros Hs. unfold run. rewrite setBrownNoiseVolume_run. simpl.
  unfold sessionPlays, sourceIsPlaying in *. simpl.
  destruct (audioContext (engine w)) as [c|]; [|exact Hs]. simpl.
  destruct (setGains_frame v (gainNodes (engine w)) c) as (_ & _ & _ & Hss & _).
  unfold isPlayingNode in *. rewrite Hss. exact Hs.
Qed.

Lemma sessionPlays_changeType t w :
  wellFormed w -> sessionPlays w -> sessionPlays (run (changeNoiseType t) w).
Proof.
  intros Hw Hs. unfold run. rewrite changeNoiseType_run.
  destruct (isPlaying (engine w)) eqn:Hp; [|exact Hs].
  pose proof (wellFormed_stop w Hw) as Hw'.
  pose proof (sessionPlays_stop w Hs) as Hs'.
  unfold run in Hw', Hs'. rewrite stopBrownNoise_run, Hp in Hw', Hs'.
  exact (sessionPlays_start t _ _ Hw' Hs').
Qed.

Lemma sessionPlays_dispatch ev w :
  wellFormed w -> sessionPlays w -> sessionPlays (run (dispatch ev) w).
Proof.
  intros Hw Hs. destruct ev.
  - unfold run. rewrite dispatch_hidden_run. exact Hs.
  - destruct (dispatch_shown_run w) as [Hidle Hplaying]. unfold run.
    destruct (isPlaying (engine w)) eqn:Hp.
    + unfold wellFormed in Hw. rewrite Hp in Hw. destruct Hw as (c & s & g & Hc & _).
      rewrite (Hplaying c eq_refl Hc).
      unfold sessionPlays, sourceIsPlaying in *. simpl. rewrite Hc in Hs.
      intros i Hi. specialize (Hs i Hi).
      unfold isPlayingNode, resumeIfSuspended in *. by destruct (state c).
    + rewrite (Hidle eq_refl). exact Hs.
  - by apply sessionPlays_stop.
Qed.

Definition soundFollowsSession (w : World) : Prop :=
  wellFormed w /\ onlySessionPlays w /\ sessionPlays w.

Lemma soundFollowsSession_react s w :
  soundFollowsSession w -> soundFollowsSession (run (react s) w).
Proof.
  intros (Hw & Ho & Hs). destruct s as [[t v| |t|v]|ev]; simpl; repeat split;
    auto using wellFormed_start, wellFormed_stop, wellFormed_changeType,
               wellFormed_setVolume, wellFormed_dispatch,
               onlySessionPlays_start, onlySessionPlays_stop,
               onlySessionPlays_changeType, onlySessionPlays_setVolume,
               onlySessionPlays_dispatch,
               sessionPlays_start, sessionPlays_stop, sessionPlays_changeType,
               sessionPlays_setVolume, sessionPlays_dispatch.
Qed.

Lemma soundFollowsSession_reactAll l : forall w,
  soundFollowsSession w -> soundFollowsSession (reactAll l w).
Proof.
  induction l as [|s l IH]; intros w H; simpl; [exact H|].
  apply IH, soundFollowsSession_react, H.
Qed.

(** X7: After any sequence of public operations and lifecycle signals on a fresh
    page of any host, a source node of the context is playing exactly when
    the engine is playing and the node is the one source of the session:
    sessions never overlap, the session's source keeps playing through volume
    changes and visibility changes, and after [stop], an unload or a failed
    start nothing is left sounding. *)
Theorem sound_comes_from_the_session_only (h : Host) (l : list Stimulus) (i : nat) :
  let e := engine (reactAll l (initialWorld h)) in
  sourceIsPlaying e i = true <-> isPlaying e = true /\ bufferSources e = [i].
Proof.
  cbv zeta.
  destruct (soundFollowsSession_reactAll l (initialWorld h)) as (Hw & Ho & Hs).
  { split; [apply wellFormed_initial|]. split; [exact I|]. by intros ? []. }
  set (w := reactAll l (initialWorld h)) in *.
  unfold onlySessionPlays, sessionPlays, sourceIsPlaying, wellFormed in *.
  split.
  - intros Hi.
    destruct (audioContext (engine w)) as [c|]; [|discriminate].
    apply Ho in Hi.
    destruct (isPlaying (engine w)).
    + destruct Hw as (c0 & s & g & _ & Hbs & _). rewrite Hbs in *.
      destruct Hi as [->|[]]. by split.
    + destruct Hw as (Hbs & _). rewrite Hbs in Hi. destruct Hi.
  - intros [Hp Hbs]. apply Hs. rewrite Hbs. by left.
Qed.

(** A run with a type change in the middle: the first session's source 0 has
    ended, the second session's source 1 plays. *)
Example sound_after_type_change :
  let e := engine (reactAll [Call (Start (Some "pink") None); Signal PageHidden;
                             Call (ChangeType (Some "brown"))] desktop) in
  sourceIsPlaying e 0 = false /\ sourceIsPlaying e 1 = true /\ bufferSources e = [1].
Proof. repeat split; reflexivity. Qed.

(** ** Volume writes and type changes composed *)

Lemma alterAt_overwrite {A} (a b : A) i (l : list A) :
  alterAt (fun _ => b) i (alterAt (fun _ => a) i l) = alterAt (fun _ => b) i l.
Proof.
  unfold alterAt. destruct (l !! i) as [x|] eqn:Hx; [|by rewrite Hx].
  rewrite list_lookup_insert_eq by (by eapply lookup_lt_Some).
  by rewrite list_insert_insert_eq.
Qed.

(** X8: Two volume writes in a row are as good as the last one: on a well-formed
    engine, [setVolume(v1)] followed by [setVolume(v2)] leaves exactly the
    world that [setVolume(v2)] alone leaves. No value is clamped or
    remembered. *)
Theorem setVolume_last_write_wins (w : World) (v1 v2 : Q) :
  wellFormed w ->
  run (setBrownNoiseVolume v2) (run (setBrownNoiseVolume v1) w)
  = run (setBrownNoiseVolume v2) w.
Proof.
  intros Hw. unfold run. rewrite !setBrownNoiseVolume_run. simpl.
  f_equal. unfold revolumedEngine. simpl. f_equal.
  unfold wellFormed in Hw.
  destruct (isPlaying (engine w)).
  - destruct Hw as (c & s & g & -> & _ & -> & _). simpl. f_equal.
    unfold setGain. simpl. destruct c. simpl. unfold set_gainStore. simpl.
    by rewrite alterAt_overwrite.
  - destruct Hw as (_ & -> & _). by destruct (audioContext (engine w)).
Qed.

Lemma setVolume_last_write_wins_witness :
  run (setBrownNoiseVolume 1.5%Q) (run (setBrownNoiseVolume 0.2%Q) brownSession)
  = run (setBrownNoiseVolume 1.5%Q) brownSession.
Proof.
  apply setVolume_last_write_wins. apply checkWellFormed_sound. reflexivity.
Defined.

(** X9: [changeNoiseType] on a well-formed playing engine always ends with a
    playing engine at the stored volume, whatever the new type is: the type
    stored is the one given, or 'brown' when the argument is omitted, and the
    session has exactly as many filter nodes as that type's branch of
    [startNoise] creates (none for an unknown type). *)
Theorem changeType_keeps_playing (w : World) (t : option string) :
  wellFormed w ->
  isPlaying (engine w) = true ->
  let e' := engine (run (changeNoiseType t) w) in
  completion (changeNoiseType t) w = Normal tt
  /\ isPlaying e' = true
  /\ currentVolume e' = currentVolume (engine w)
  /\ currentNoiseType e' = default "brown" t
  /\ length (bufferSources e') = 1
  /\ length (gainNodes e') = 1
  /\ length (filterNodes e') = length (builtFilters (default "brown" t)).
Proof.
  intros Hw Hp. unfold run, completion. cbv zeta.
  rewrite changeNoiseType_run, Hp.
  unfold wellFormed in Hw. rewrite Hp in Hw.
  destruct Hw as (c & s & g & Hc & _).
  set (w0 := mkWorld (stoppedEngine (engine w)) (host w)).
  destruct (startNoise_cases t (Some (currentVolume (engine w))) w0)
    as [[Hp' _]|[(_ & Hc' & _)|(_ & _ & b & -> & _)]].
  { discriminate. }
  { unfold canStart, w0 in Hc'. simpl in Hc'. rewrite Hc in Hc'. discriminate. }
  simpl. repeat (split; [reflexivity|]). apply length_seq.
Qed.

Lemma changeType_keeps_playing_witness :
  let e' := engine (run (changeNoiseType None) (run (startNoise (Some "white") None) desktop)) in
  isPlaying e' = true /\ currentNoiseType e' = "brown" /\ length (filterNodes e') = 2.
Proof.
  assert (Hw : wellFormed (run (startNoise (Some "white") None) desktop))
    by (apply checkWellFormed_sound; reflexivity).
  destruct (changeType_keeps_playing _ None Hw eq_refl) as (_ & Hp & _ & Hty & _ & _ & Hf).
  split; [exact Hp|]. split; [exact Hty | exact Hf].
Defined.

(** ** The two filter helpers *)

Definition helperBrownFilters : list BiquadFilterNode :=
  [mkBiquad lowpass 1000%Q 0.707%Q; mkBiquad lowpass 500%Q 0.707%Q].

Definition helperPinkFilters : list BiquadFilterNode := [mkBiquad highpass 20%Q 1%Q].

Definition withFilters (k : list BiquadFilterNode) (w : World) : World :=
  onEngineContext (fun c => set_filterStore (filterStore c ++ k) c) w.

(** X10: [createBrownNoiseFilters] and [createPinkNoiseFilter] throw on an engine
    without context and change nothing. With a context they only add their
    nodes to the context's filter store and return the new references: two
    low-pass nodes at 1000 Hz and 500 Hz with Q 0.707, and one high-pass node
    at 20 Hz with the default Q of 1. They link nothing and do not register
    the nodes in the session's filter array, and their chains are not the
    ones [startNoise] builds for 'brown' and 'pink'. *)
Theorem filter_helpers_only_create_nodes (w : World) :
  match audioContext (engine w) with
  | Some c =>
      createBrownNoiseFilters w
      = (Normal [length (filterStore c); S (length (filterStore c))],
         withFilters helperBrownFilters w)
      /\ createPinkNoiseFilter w
         = (Normal (length (filterStore c)), withFilters helperPinkFilters w)
  | None =>
      createBrownNoiseFilters w = (Throw TypeError, w)
      /\ createPinkNoiseFilter w = (Throw TypeError, w)
  end
  /\ helperBrownFilters <> builtFilters "brown"
  /\ helperPinkFilters <> builtFilters "pink".
Proof.
  split; [|split; discriminate].
  destruct w as [[[c|] bs gs fs pl vol ty] h]; simpl; [|split; reflexivity].
  destruct c as [rate st pr ss gstore fstore conns].
  unfold createBrownNoiseFilters, createPinkNoiseFilter, withFilters, onEngineContext,
    helperBrownFilters, helperPinkFilters.
  split.
  - exec. tidy. exec. tidy. exec. rewrite <- !app_assoc. reflexivity.
  - exec. tidy. exec. reflexivity.
Qed.

(** * The older brown-noise module

    The repository's first noise module mixes seven bands, each a looping
    white-noise source behind its own low-pass filter and gain node. It has
    five module variables: [audioContext], [bufferSources], [gainNodes],
    [isPlaying] and [currentVolume]. They are kept in the same record
    [Engine]; its other two fields are no variables of this module and none
    of its functions reads or writes them. Its [initAudioContext] is, word
    for word, the one above. *)
Module LegacyModule.

Definition frequencies : list Q := [100; 200; 400; 800; 1600; 3200; 6400]%Q.

(** A JavaScript array length as a number. *)
Definition lengthNumber {A} (l : list A) : Q := inject_Z (Z.of_nat (length l)).

(** The body of [frequencies.forEach(freq => { ... })]. *)
Definition startBand (volume freq : Q) : M unit :=
  buffer <- Legacy.bandBuffer ;;
  source <- createBufferSource ;;
  setBuffer source buffer ;;
  setLoop source true ;;
  filter <- createBiquadFilter ;;
  setFilterType filter lowpass ;;
  setFrequency filter freq ;;
  setQ filter 0.5%Q ;;
  gainNode <- createGain ;;
  setGainValue gainNode (volume / lengthNumber frequencies)%Q ;;
  connect (SourceRef source) (FilterRef filter) ;;
  connect (FilterRef filter) (GainRef gainNode) ;;
  connect (GainRef gainNode) Destination ;;
  sourceStart source ;;
  writeVar (fun e => set_bufferSources (bufferSources e ++ [source]) e) ;;
  writeVar (fun e => set_gainNodes (gainNodes e ++ [gainNode]) e).

Definition startBrownNoise (volume : option Q) : M unit :=
  let volume := default 0.3%Q volume in
  alreadyPlaying <- readVar isPlaying ;;
  if alreadyPlaying then ret tt else
  initAudioContext ;;
  ctxState <- onContext (fun c => (Normal (state c), c)) ;;
  match ctxState with suspended => resume | _ => ret tt end ;;
  writeVar (set_currentVolume volume) ;;
  forEach frequencies (startBand volume) ;;
  writeVar (set_isPlaying true).

Definition stopBrownNoise : M unit :=
  nowPlaying <- readVar isPlaying ;;
  if negb nowPlaying then ret tt else
  sources <- readVar bufferSources ;;
  forEach sources (fun source => tryCatch (sourceStop source) (fun _ => ret tt)) ;;
  writeVar (set_bufferSources []) ;;
  writeVar (set_gainNodes []) ;;
  writeVar (set_isPlaying false).

Definition setBrownNoiseVolume (volume : Q) : M unit :=
  writeVar (set_currentVolume volume) ;;
  nodes <- readVar gainNodes ;;
  forEach nodes (fun gainNode =>
    count <- readVar (fun e => lengthNumber (gainNodes e)) ;;
    setGainValue gainNode (volume / count)%Q).

Definition isBrownNoisePlaying : M bool := readVar isPlaying.

(** The public operations of the older module. *)
Inductive Operation :=
| Start (volume : option Q)
| Stop
| SetVolume (volume : Q).

Definition perform (op : Operation) : M unit :=
  match op with
  | Start v => startBrownNoise v
  | Stop => stopBrownNoise
  | SetVolume v => setBrownNoiseVolume v
  end.

Fixpoint performAll (ops : list Operation) (w : World) : World :=
  match ops with
  | [] => w
  | op :: rest => performAll rest (run (perform op) w)
  end.

(** The buffer the generator returns on [w]. *)
Definition noiseOf (w : World) : AudioBuffer :=
  match completion Legacy.bandBuffer w with
  | Normal b => b
  | Throw _ => createBuffer 1 0 0
  end.

(** One more band in the context and in the arrays. *)
Definition bandAdded (volume freq : Q) (w : World) : World :=
  match audioContext (engine w) with
  | Some c =>
      let s := length (sourceStore c) in
      let f := length (filterStore c) in
      let g := length (gainStore c) in
      mkWorld
        (mkEngine
           (Some (mkAudioContext (sampleRate c) (state c) (pendingResumes c)
                    (sourceStore c ++ [mkSource (Some (noiseOf w)) true playing])
                    (gainStore c ++ [mkGain (volume / lengthNumber frequencies)%Q])
                    (filterStore c ++ [mkBiquad lowpass freq 0.5%Q])
                    (connections c
                     ++ [(SourceRef s, FilterRef f); (FilterRef f, GainRef g);
                         (GainRef g, Destination)])))
           (bufferSources (engine w) ++ [s])
           (gainNodes (engine w) ++ [g])
           (filterNodes (engine w))
           (isPlaying (engine w))
           (currentVolume (engine w))
           (currentNoiseType (engine w)))
        (set_randomDraws (sampleRate c * 2 + randomDraws (host w)) (host w))
  | None => w
  end.

Lemma legacy_bandBuffer_run w c :
  audioContext (engine w) = Some c ->
  Legacy.bandBuffer w = (Normal (noiseOf w), advance (sampleRate c * 2) w).
Proof.
  intros Hc. unfold noiseOf, completion.
  destruct (generateWhiteNoiseBuffer_run None w c Hc) as (b & E & _).
  change Legacy.bandBuffer with (generateWhiteNoiseBuffer None). by rewrite E.
Qed.

Lemma legacy_startBand_run volume freq w c :
  audioContext (engine w) = Some c ->
  startBand volume freq w = (Normal tt, bandAdded volume freq w).
Proof.
  intros Hc. unfold bandAdded. rewrite Hc.
  pose proof (legacy_bandBuffer_run w c Hc) as E.
  set (b := noiseOf w) in *. clearbody b.
  destruct w as [[ctx bs gs fs pl vol ty] [sup drate blocked rs rd hid ls log]].
  simpl in *. subst ctx.
  destruct c as [rate st pr ss gstore fstore conns].
  unfold advance in E. simpl in E.
  unfold startBand.
  do 15 run_step.
  exec. rewrite <- !app_assoc. reflexivity.
Qed.

Definition bandsAdded (volume : Q) (fs : list Q) (w : World) : World :=
  fold_left (fun w freq => bandAdded volume freq w) fs w.

Lemma legacy_forEach_bands volume fs w :
  is_Some (audioContext (engine w)) ->
  forEach fs (startBand volume) w = (Normal tt, bandsAdded volume fs w).
Proof.
  apply (forEach_normal _ (bandAdded volume)
           (fun w => is_Some (audioContext (engine w)))).
  intros freq w0 [c Hc]. split; [by eapply legacy_startBand_run|].
  unfold bandAdded. rewrite Hc. simpl. eauto.
Qed.

Definition bandLinks (s f g : nat) : list (NodeRef * NodeRef) :=
  [(SourceRef s, FilterRef f); (FilterRef f, GainRef g); (GainRef g, Destination)].

Fixpoint linksFrom (s f g n : nat) : list (NodeRef * NodeRef) :=
  match n with
  | O => []
  | S n' => bandLinks s f g ++ linksFrom (S s) (S f) (S g) n'
  end.

Definition bandFilter (freq : Q) : BiquadFilterNode := mkBiquad lowpass freq 0.5%Q.

(** What a run of the loop adds, band after band. *)
Lemma legacy_bandsAdded_spec volume fs : forall w c,
  audioContext (engine w) = Some c ->
  let w' := bandsAdded volume fs w in
  exists c',
    audioContext (engine w') = Some c'
    /\ sampleRate c' = sampleRate c /\ state c' = state c
    /\ pendingResumes c' = pendingResumes c
    /\ length (sourceStore c') = length (sourceStore c) + length fs
    /\ (forall i, i < length (sourceStore c) -> sourceStore c' !! i = sourceStore c !! i)
    /\ (forall i, length (sourceStore c) <= i < length (sourceStore c) + length fs ->
          isPlayingNode c' i = true)
    /\ gainStore c'
       = gainStore c ++ replicate (length fs) (mkGain (volume / lengthNumber frequencies)%Q)
    /\ filterStore c' = filterStore c ++ map bandFilter fs
    /\ connections c'
       = connections c
         ++ linksFrom (length (sourceStore c)) (length (filterStore c))
              (length (gainStore c)) (length fs)
    /\ bufferSources (engine w')
       = bufferSources (engine w) ++ seq (length (sourceStore c)) (length fs)
    /\ gainNodes (engine w')
       = gainNodes (engine w) ++ seq (length (gainStore c)) (length fs)
    /\ filterNodes (engine w') = filterNodes (engine w)
    /\ isPlaying (engine w') = isPlaying (engine w)
    /\ currentVolume (engine w') = currentVolume (engine w)
    /\ currentNoiseType (engine w') = currentNoiseType (engine w)
    /\ host w' = set_randomDraws (length fs * (sampleRate c * 2) + randomDraws (host w)) (host w).
Proof.
  induction fs as [|freq fs IH]; intros w c Hc; cbv zeta.
  - exists c. simpl. rewrite !app_nil_r, Nat.add_0_r.
    repeat split; try done.
    + intros i Hi. lia.
    + by destruct w as [? []].
  - simpl. set (w1 := bandAdded volume freq w).
    assert (Hc1 : audioContext (engine w1)
                  = Some (mkAudioContext (sampleRate c) (state c) (pendingResumes c)
                           (sourceStore c ++ [mkSource (Some (noiseOf w)) true playing])
                           (gainStore c ++ [mkGain (volume / lengthNumber frequencies)%Q])
                           (filterStore c ++ [bandFilter freq])
                           (connections c
                            ++ bandLinks (length (sourceStore c)) (length (filterStore c))
                                 (length (gainStore c))))).
    { unfold w1, bandAdded. by rewrite Hc. }
    destruct (IH w1 _ Hc1)
      as (c' & Hc' & Hrate & Hstate & Hpr & Hlen & Hold & Hnew & Hg & Hf & Hl
          & Hbs & Hgs & Hfn & Hp & Hv & Hty & Hhost).
    simpl in *. rewrite !length_new in *.
    exists c'. split; [exact Hc'|].
    assert (Hw1 : bufferSources (engine w1) = bufferSources (engine w) ++ [length (sourceStore c)]
                  /\ gainNodes (engine w1) = gainNodes (engine w) ++ [length (gainStore c)]
                  /\ filterNodes (engine w1) = filterNodes (engine w)
                  /\ isPlaying (engine w1) = isPlaying (engine w)
                  /\ currentVolume (engine w1) = currentVolume (engine w)
                  /\ currentNoiseType (engine w1) = currentNoiseType (engine w)
                  /\ host w1 = set_randomDraws (sampleRate c * 2 + randomDraws (host w)) (host w)).
    { unfold w1, bandAdded. rewrite Hc. by repeat split. }
    destruct Hw1 as (Hbs1 & Hgs1 & Hfn1 & Hp1 & Hv1 & Hty1 & Hhost1).
    repeat split; try congruence.
    + lia.
    + intros i Hi. rewrite Hold by lia. by apply lookup_app_l.
    + intros i Hi. destruct (decide (i = length (sourceStore c))) as [->|Hne].
      * unfold isPlayingNode. rewrite Hold by lia. by rewrite lookup_new.
      * apply Hnew. lia.
    + rewrite Hg, <- app_assoc. reflexivity.
    + rewrite Hf, <- app_assoc. reflexivity.
    + rewrite Hl, <- app_assoc. reflexivity.
    + rewrite Hbs, Hbs1, <- app_assoc. reflexivity.
    + rewrite Hgs, Hgs1, <- app_assoc. reflexivity.
    + rewrite Hhost, Hhost1. unfold set_randomDraws. simpl. f_equal. lia.
Qed.

(** The world in which the loop of [startBrownNoise] starts. *)
Definition prepared (volume : Q) (w : World) : World :=
  mkWorld
    (set_currentVolume volume
       (set_audioContext (Some (resumeIfSuspended (contextAfterInit w))) (engine w)))
    (hostAfterInit w).

Definition started (volume : Q) (w : World) : World :=
  let w' := bandsAdded volume frequencies (prepared volume w) in
  mkWorld (set_isPlaying true (engine w')) (host w').

Lemma legacy_start_run volume w :
  startBrownNoise volume w
  = if isPlaying (engine w) then (Normal tt, w)
    else if canStart w then (Normal tt, started (default 0.3%Q volume) w)
    else (Throw TypeError, w).
Proof.
  unfold startBrownNoise. set (v := default 0.3%Q volume).
  erewrite (bind_normal (readVar isPlaying)) by reflexivity.
  destruct (isPlaying (engine w)) eqn:Hp; [reflexivity|]. cbv beta iota.
  destruct (canStart w) eqn:Hc.
  - erewrite (bind_normal initAudioContext)
      by (rewrite initAudioContext_run, Hc; reflexivity).
    assert (Hprep : forall k : unit -> M unit,
      (ctxState <- onContext (fun c => (Normal (state c), c)) ;;
       match ctxState with suspended => resume | _ => ret tt end ;;
       writeVar (set_currentVolume v) ;; k tt)%engine (afterInit w)
      = k tt (prepared v w)).
    { intros k. unfold prepared, afterInit, resumeIfSuspended.
      destruct (contextAfterInit w) as [rate st pr ss gstore fstore conns].
      destruct w as [[ctx bs gs fs pl vol ty] h]. simpl.
      destruct st; reflexivity. }
    rewrite (Hprep (fun _ => forEach frequencies (startBand v) ;; writeVar (set_isPlaying true))%engine).
    erewrite bind_normal by (apply legacy_forEach_bands; simpl; eauto).
    reflexivity.
  - erewrite (bind_throw initAudioContext)
      by (rewrite initAudioContext_run, Hc; reflexivity).
    reflexivity.
Qed.

Definition stoppedEngine (e : Engine) : Engine :=
  {| audioContext := haltAll (bufferSources e) <$> audioContext e;
     bufferSources := [];
     gainNodes := [];
     filterNodes := filterNodes e;
     isPlaying := false;
     currentVolume := currentVolume e;
     currentNoiseType := currentNoiseType e |}.

Lemma legacy_stop_run w :
  stopBrownNoise w
  = (Normal tt,
     if isPlaying (engine w) then mkWorld (stoppedEngine (engine w)) (host w) else w).
Proof.
  unfold stopBrownNoise.
  erewrite (bind_normal (readVar isPlaying)) by reflexivity.
  destruct (isPlaying (engine w)) eqn:Hp; [|reflexivity]. cbv beta iota delta [negb].
  erewrite (bind_normal (readVar bufferSources)) by reflexivity.
  erewrite bind_normal
    by (apply (forEach_normal _ (fun i => onEngineContext (haltSource i)) (fun _ => True));
        [split; [apply guarded_stop_run|exact I]|exact I]).
  rewrite onEngineContext_fold.
  destruct w as [[ctx bs gs fs pl vol ty] h]. by destruct ctx.
Qed.

(** Every live gain node gets the share [volume / gainNodes.length]. *)
Definition revolumedEngine (v : Q) (e : Engine) : Engine :=
  {| audioContext :=
       setGains (v / lengthNumber (gainNodes e))%Q (gainNodes e) <$> audioContext e;
     bufferSources := bufferSources e;
     gainNodes := gainNodes e;
     filterNodes := filterNodes e;
     isPlaying := isPlaying e;
     currentVolume := v;
     currentNoiseType := currentNoiseType e |}.

Lemma legacy_setVolume_run v w :
  setBrownNoiseVolume v w
  = (match audioContext (engine w), gainNodes (engine w) with
     | None, _ :: _ => Throw TypeError
     | _, _ => Normal tt
     end,
     mkWorld (revolumedEngine v (engine w)) (host w)).
Proof.
  unfold setBrownNoiseVolume.
  erewrite (bind_normal (writeVar _)) by reflexivity.
  erewrite (bind_normal (readVar _)) by reflexivity.
  destruct w as [[ctx bs gs fs pl vol ty] h]. unfold revolumedEngine. simpl.
  destruct ctx as [c|].
  - rewrite (forEach_normal _
               (fun g => onEngineContext (setGain (v / lengthNumber gs)%Q g))
               (fun w => is_Some (audioContext (engine w)) /\ gainNodes (engine w) = gs)).
    + rewrite onEngineContext_fold. reflexivity.
    + intros g [[[c'|] ? gs' ? ? ? ?] ?] [[? Hsome] Hgs]; [|discriminate].
      simpl in Hgs. subst gs'. split; [reflexivity|]. simpl. eauto.
    + simpl. eauto.
  - destruct gs as [|g gs]; reflexivity.
Qed.

(** An idle engine holds no node; a playing engine has its context and one
    source and one gain node per band, all in the context's store. *)
Definition wellFormed (w : World) : Prop :=
  let e := engine w in
  if isPlaying e then
    exists c,
      audioContext e = Some c
      /\ length (bufferSources e) = length frequencies
      /\ length (gainNodes e) = length frequencies
      /\ Forall (fun s => s < length (sourceStore c)) (bufferSources e)
      /\ Forall (fun g => g < length (gainStore c)) (gainNodes e)
  else bufferSources e = [] /\ gainNodes e = [].

Definition checkWellFormed (w : World) : bool :=
  let e := engine w in
  if isPlaying e then
    match audioContext e with
    | Some c =>
        (length (bufferSources e) =? length frequencies)
        && (length (gainNodes e) =? length frequencies)
        && forallb (fun s => s <? length (sourceStore c)) (bufferSources e)
        && forallb (fun g => g <? length (gainStore c)) (gainNodes e)
    | None => false
    end
  else
    match bufferSources e, gainNodes e with
    | [], [] => true
    | _, _ => false
    end.



Lemma legacy_wellFormed_initial h : wellFormed (initialWorld h).
Proof. by split. Qed.

Lemma legacy_wellFormed_start v w : wellFormed w -> wellFormed (run (startBrownNoise v) w).
Proof.
  intros Hw. unfold run. rewrite legacy_start_run.
  destruct (isPlaying (engine w)) eqn:Hp; [exact Hw|].
  destruct (canStart w); [|exact Hw].
  unfold wellFormed in Hw. rewrite Hp in Hw. destruct Hw as [Hbs Hgs].
  unfold started. cbv zeta.
  destruct (legacy_bandsAdded_spec (default 0.3%Q v) frequencies
              (prepared (default 0.3%Q v) w) _ eq_refl)
    as (c' & Hc' & _ & _ & _ & Hlen & _ & _ & Hg & _ & _ & Hbs' & Hgs' & _).
  cbv zeta in *.
  revert Hc' Hlen Hg Hbs' Hgs'.
  generalize (bandsAdded (default 0.3%Q v) frequencies (prepared (default 0.3%Q v) w)).
  intros w' Hc' Hlen Hg Hbs' Hgs'.
  assert (Hlen0 : length (sourceStore (resumeIfSuspended (contextAfterInit w)))
                  = length (sourceStore (contextAfterInit w)))
    by (unfold resumeIfSuspended; by destruct (state (contextAfterInit w))).
  assert (Hgain0 : length (gainStore (resumeIfSuspended (contextAfterInit w)))
                   = length (gainStore (contextAfterInit w)))
    by (unfold resumeIfSuspended; by destruct (state (contextAfterInit w))).
  unfold prepared in Hbs', Hgs'.
  cbn [engine bufferSources gainNodes set_currentVolume set_audioContext] in Hbs', Hgs'.
  rewrite Hbs in Hbs'. rewrite Hgs in Hgs'. rewrite app_nil_l in Hbs', Hgs'.
  unfold wellFormed, set_isPlaying.
  cbn [engine isPlaying audioContext bufferSources gainNodes].
  rewrite Hc', Hbs', Hgs'.
  cbn [snd engine isPlaying audioContext bufferSources gainNodes]. rewrite !length_seq.
  exists c'. split; [reflexivity|]. split; [reflexivity|]. split; [reflexivity|].
  split.
  - apply Forall_seq. intros i Hi. rewrite Hlen. lia.
  - apply Forall_seq. intros i Hi. rewrite Hg, length_app, length_replicate. lia.
Qed.

Lemma legacy_wellFormed_stop w : wellFormed w -> wellFormed (run stopBrownNoise w).
Proof.
  intros Hw. unfold run. rewrite legacy_stop_run. simpl.
  destruct (isPlaying (engine w)) eqn:Hp; [|exact Hw]. by split.
Qed.

Lemma legacy_wellFormed_setVolume v w :
  wellFormed w -> wellFormed (run (setBrownNoiseVolume v) w).
Proof.
  intros Hw. unfold run. rewrite legacy_setVolume_run. simpl.
  unfold wellFormed in *. simpl.
  destruct (isPlaying (engine w)); [|exact Hw].
  destruct Hw as (c & Hc & Hbs & Hgs & Hfs & Hfg).
  rewrite Hc. simpl. eexists. split; [reflexivity|].
  destruct (setGains_frame (v / lengthNumber (gainNodes (engine w)))%Q
              (gainNodes (engine w)) c) as (_ & _ & _ & -> & -> & _).
  by repeat split.
Qed.

Lemma legacy_wellFormed_performAll ops : forall w,
  wellFormed w -> wellFormed (performAll ops w).
Proof.
  induction ops as [|op ops IH]; intros w Hw; simpl; [exact Hw|].
  apply IH. destruct op; simpl;
    auto using legacy_wellFormed_start, legacy_wellFormed_stop,
               legacy_wellFormed_setVolume.
Qed.




Lemma legacy_seven_shares (v : Q) :
  (fold_right Qplus 0 (map (default 0) (replicate (length frequencies)
                                         (Some (v / lengthNumber frequencies))))
   == v)%Q.
Proof. unfold lengthNumber, frequencies. simpl. field. Qed.








(** *** Volume of the older module *)

Definition gainsWritten (x : Q) (l : list nat) (s : list GainNode) : list GainNode :=
  fold_left (fun s g => alterAt (fun _ => mkGain x) g s) l s.

Lemma legacy_setGains_gainStore x l : forall c,
  gainStore (setGains x l c) = gainsWritten x l (gainStore c).
Proof. induction l as [|g l IH]; intros c; simpl; [reflexivity|]. by rewrite IH. Qed.


Lemma legacy_gainsWritten_length x l : forall s, length (gainsWritten x l s) = length s.
Proof.
  induction l as [|g l IH]; intros s; simpl; [reflexivity|].
  by rewrite IH, alterAt_length.
Qed.


Lemma legacy_gainsWritten_id x l : forall s,
  Forall (fun g => s !! g = Some (mkGain x)) l -> gainsWritten x l s = s.
Proof.
  induction l as [|a l IH]; intros s H; simpl; [reflexivity|].
  inversion H as [|? ? Ha Hl]; subst.
  assert (E : alterAt (fun _ => mkGain x) a s = s).
  { unfold alterAt. rewrite Ha. by apply list_insert_id. }
  rewrite E. by apply IH.
Qed.





Lemma legacy_setGains_id x l c :
  Forall (fun g => gainStore c !! g = Some (mkGain x)) l -> setGains x l c = c.
Proof.
  intros H.
  assert (E : gainStore (setGains x l c) = gainStore c)
    by (rewrite legacy_setGains_gainStore; by apply legacy_gainsWritten_id).
  destruct (setGains_frame x l c) as (Hrate & Hstate & Hpr & Hss & _ & Hfs & Hconn).
  destruct (setGains x l c), c. simpl in *. by subst.
Qed.

(** X13: Start and volume agree on the share: [setBrownNoiseVolume(v)] right
    after [startBrownNoise(v)] changes nothing at all, since the seven gain
    nodes already hold [v / 7]. *)
Theorem legacy_setVolume_after_start_is_noop (w : World) (v : Q) :
  wellFormed w ->
  isPlaying (engine w) = false ->
  canStart w = true ->
  let w1 := run (startBrownNoise (Some v)) w in
  setBrownNoiseVolume v w1 = (Normal tt, w1).
Proof.
  intros Hw Hp Hc. cbv zeta. unfold run.
  rewrite legacy_start_run, Hp, Hc. cbn [snd].
  unfold wellFormed in Hw. rewrite Hp in Hw. destruct Hw as [Hbs Hgs].
  unfold started. cbv zeta.
  destruct (legacy_bandsAdded_spec (default 0.3%Q (Some v)) frequencies
              (prepared (default 0.3%Q (Some v)) w) _ eq_refl)
    as (c' & Hc' & _ & _ & _ & _ & _ & _ & Hg & _ & _ & _ & Hgs' & _ & _ & Hv & _).
  cbv zeta in *.
  revert Hc' Hg Hgs' Hv.
  generalize (bandsAdded (default 0.3%Q (Some v)) frequencies
                (prepared (default 0.3%Q (Some v)) w)).
  intros w' Hc' Hg Hgs' Hv.
  unfold prepared in Hgs', Hv, Hg.
  cbn [engine gainNodes currentVolume set_currentVolume set_audioContext default] in Hgs', Hv.
  rewrite Hgs, app_nil_l in Hgs'.
  rewrite legacy_setVolume_run.
  unfold revolumedEngine, set_isPlaying.
  cbn [engine host audioContext gainNodes bufferSources filterNodes isPlaying
       currentVolume currentNoiseType].
  rewrite Hc', Hgs', Hv.
  assert (Hid : setGains (v / lengthNumber
                          (seq (length (gainStore (resumeIfSuspended (contextAfterInit w))))
                               (length frequencies)))%Q
                  (seq (length (gainStore (resumeIfSuspended (contextAfterInit w))))
                       (length frequencies)) c' = c').
  { apply legacy_setGains_id. apply Forall_seq. intros g Hg'.
    rewrite Hg.
    replace g with (length (gainStore (resumeIfSuspended (contextAfterInit w)))
                    + (g - length (gainStore (resumeIfSuspended (contextAfterInit w)))))
      by lia.
    rewrite lookup_appended.
    unfold lengthNumber. rewrite length_seq.
    apply lookup_replicate_2. lia. }
  cbn [fmap option_fmap option_map]. rewrite Hid. reflexivity.
Qed.

Lemma legacy_setVolume_after_start_is_noop_witness :
  setBrownNoiseVolume 0.4%Q (run (startBrownNoise (Some 0.4%Q)) desktop)
  = (Normal tt, run (startBrownNoise (Some 0.4%Q)) desktop).
Proof.
  assert (Hw : wellFormed desktop) by (by split).
  exact (legacy_setVolume_after_start_is_noop desktop 0.4%Q Hw eq_refl eq_refl).
Defined.

(** *** Session and flag in the older module *)

(** X14: After any sequence of start, stop and volume calls of the older module
    on a fresh page of any host, the arrays of sources and of gain nodes are
    non-empty exactly when the flag is set, they then hold seven nodes each,
    and they are both empty otherwise. *)
Theorem legacy_session_follows_flag (h : Host) (ops : list Operation) :
  let e := engine (performAll ops (initialWorld h)) in
  (isPlaying e = true <-> bufferSources e <> [])
  /\ (isPlaying e = true <-> gainNodes e <> [])
  /\ (if isPlaying e
      then length (bufferSources e) = 7 /\ length (gainNodes e) = 7
      else bufferSources e = [] /\ gainNodes e = []).
Proof.
  pose proof (legacy_wellFormed_performAll ops _ (legacy_wellFormed_initial h)) as Hw.
  unfold wellFormed in Hw. cbv zeta in *.
  destruct (isPlaying (engine (performAll ops (initialWorld h)))).
  - destruct Hw as (c & _ & Hbs & Hgs & _).
    change (length frequencies) with 7 in Hbs, Hgs.
    split; [|split; [|by split]].
    + split; [|reflexivity]. intros _ Hnil. by rewrite Hnil in Hbs.
    + split; [|reflexivity]. intros _ Hnil. by rewrite Hnil in Hgs.
  - destruct Hw as [-> ->]. split; [|split; [|by split]]; split; done.
Qed.

(** X15: [stopBrownNoise] of the older module never throws, whatever state the
    sources are in; from a playing engine it leaves both arrays empty, the
    flag false and none of the old sources playing, from an idle engine it
    changes nothing, and a second stop changes nothing more. It removes no
    node and no link from the context. *)
Theorem legacy_stop_is_safe_and_idempotent (w : World) :
  let w1 := run stopBrownNoise w in
  completion stopBrownNoise w = Normal tt
  /\ isPlaying (engine w1) = false
  /\ (if isPlaying (engine w)
      then bufferSources (engine w1) = [] /\ gainNodes (engine w1) = []
      else w1 = w)
  /\ match audioContext (engine w), audioContext (engine w1) with
     | Some c, Some c1 =>
         connections c1 = connections c
         /\ gainStore c1 = gainStore c
         /\ filterStore c1 = filterStore c
         /\ length (sourceStore c1) = length (sourceStore c)
         /\ (isPlaying (engine w) = true ->
             Forall (fun i => isPlayingNode c1 i = false) (bufferSources (engine w)))
     | None, None => True
     | _, _ => False
     end
  /\ stopBrownNoise w1 = (Normal tt, w1).
Proof.
  cbv zeta. unfold run, completion. rewrite legacy_stop_run. cbn [fst snd].
  destruct (isPlaying (engine w)) eqn:Hp.
  - split; [reflexivity|]. split; [reflexivity|]. split; [by split|]. split.
    + simpl. destruct (audioContext (engine w)) as [c|]; [|exact I]. simpl.
      destruct (haltAll_frame (bufferSources (engine w)) c) as (_ & _ & _ & ? & ? & ? & ?).
      repeat split; try assumption. intros _. apply haltAll_silent.
    + by rewrite legacy_stop_run.
  - rewrite Hp. split; [reflexivity|]. split; [reflexivity|]. split; [reflexivity|]. split.
    + destruct (audioContext (engine w)) as [c|]; [|exact I]. repeat split. discriminate.
    + by rewrite legacy_stop_run, Hp.
Qed.

End LegacyModule.

(** * The timer component, where it drives the engine

    Of the timer UI, the parts that call the engine: the effect that keeps
    the noise in step with the timer, and the handlers of the start/pause
    button, the reset button, the volume slider and the noise type select.
    A handler sees the state of the render it was created in, performs its
    calls to the engine, and yields the state of the next render; the effect
    then runs on that state. *)
Module App.

Record Timer := mkTimer {
  focusMinutes : nat;
  breakMinutes : nat;
  timeRemaining : nat;
  isRunning : bool;
  isPaused : bool;
  isBreak : bool;
  noiseVolume : Q;
  noiseType : string
}.

(** The test [isRunning && !isPaused && !isBreak] of the effect and of the
    two noise handlers. *)
Definition focusing (s : Timer) : bool :=
  isRunning s && negb (isPaused s) && negb (isBreak s).

(** The noise effect. *)
Definition noiseControlEffect (s : Timer) : M unit :=
  if focusing s then
    nowPlaying <- isBrownNoisePlaying ;;
    if negb nowPlaying then startNoise (Some (noiseType s)) (Some (noiseVolume s))
    else ret tt
  else
    nowPlaying <- isBrownNoisePlaying ;;
    if nowPlaying then stopBrownNoise else ret tt.

Definition handleStartPause (s : Timer) : M Timer :=
  if negb (isRunning s) then
    ret (mkTimer (focusMinutes s) (breakMinutes s) (timeRemaining s) true false
                 (isBreak s) (noiseVolume s) (noiseType s))
  else if negb (isPaused s) then
    ret (mkTimer (focusMinutes s) (breakMinutes s) (timeRemaining s) (isRunning s) true
                 (isBreak s) (noiseVolume s) (noiseType s))
  else
    ret (mkTimer (focusMinutes s) (breakMinutes s) (timeRemaining s) (isRunning s) false
                 (isBreak s) (noiseVolume s) (noiseType s)).

Definition handleReset (s : Timer) : M Timer :=
  stopBrownNoise ;;
  ret (mkTimer (focusMinutes s) (breakMinutes s) (focusMinutes s * 60) false false false
               (noiseVolume s) (noiseType s)).

Definition handleVolumeChange (newVolume : Q) (s : Timer) : M Timer :=
  (if focusing s then setBrownNoiseVolume newVolume else ret tt) ;;
  ret (mkTimer (focusMinutes s) (breakMinutes s) (timeRemaining s) (isRunning s)
               (isPaused s) (isBreak s) newVolume (noiseType s)).

(** [onChange] of the noise type select. *)
Definition handleNoiseTypeChange (newType : string) (s : Timer) : M Timer :=
  (if focusing s then changeNoiseType (Some newType) else ret tt) ;;
  ret (mkTimer (focusMinutes s) (breakMinutes s) (timeRemaining s) (isRunning s)
               (isPaused s) (isBreak s) (noiseVolume s) newType).

Inductive Event :=
| StartPause
| Reset
| VolumeChange (newVolume : Q)
| NoiseTypeChange (newType : string).

Definition handle (ev : Event) : Timer -> M Timer :=
  match ev with
  | StartPause => handleStartPause
  | Reset => handleReset
  | VolumeChange v => handleVolumeChange v
  | NoiseTypeChange t => handleNoiseTypeChange t
  end.

(** One user action: the handler, then the effect on the new state. A throw
    in the handler leaves the state of the render as it was. *)
Definition step (ev : Event) (sw : Timer * World) : Timer * World :=
  let (s, w) := sw in
  match handle ev s w with
  | (Normal s', w') => (s', run (noiseControlEffect s') w')
  | (Throw _, w') => (s, run (noiseControlEffect s) w')
  end.

Fixpoint steps (evs : list Event) (sw : Timer * World) : Timer * World :=
  match evs with
  | [] => sw
  | ev :: rest => steps rest (step ev sw)
  end.

(** What the engine's operations leave, as far as the component can tell. *)

Lemma app_canStart w : audioSupported (host w) = true -> canStart w = true.
Proof. intros H. unfold canStart. by destruct (audioContext (engine w)). Qed.

Lemma app_start_session t v w :
  wellFormed w -> isPlaying (engine w) = false -> canStart w = true ->
  let w' := run (startNoise t v) w in
  completion (startNoise t v) w = Normal tt
  /\ isPlaying (engine w') = true
  /\ currentNoiseType (engine w') = default "brown" t
  /\ currentVolume (engine w') = default 0.3%Q v
  /\ sessionGains (engine w') = [Some (default 0.3%Q v)]
  /\ audioSupported (host w') = audioSupported (host w).
Proof.
  intros Hw Hp Hc. unfold run, completion. cbv zeta.
  destruct (startNoise_cases t v w)
    as [[Hp' _]|[(_ & Hc' & _)|(_ & _ & b & -> & _)]]; [congruence..|].
  unfold wellFormed in Hw. rewrite Hp in Hw. destruct Hw as (_ & Hgs & _).
  unfold sessionGains. simpl. rewrite Hgs. simpl. rewrite lookup_new.
  repeat (split; [reflexivity|]).
  unfold hostAfterInit. destruct (audioContext (engine w)); [reflexivity|].
  by destruct (autoplayBlocked (host w)).
Qed.

Lemma app_setVolume_session v w :
  wellFormed w -> isPlaying (engine w) = true ->
  let w' := run (setBrownNoiseVolume v) w in
  completion (setBrownNoiseVolume v) w = Normal tt
  /\ isPlaying (engine w') = true
  /\ currentNoiseType (engine w') = currentNoiseType (engine w)
  /\ currentVolume (engine w') = v
  /\ sessionGains (engine w') = [Some v]
  /\ host w' = host w.
Proof.
  intros Hw Hp. unfold run, completion. cbv zeta. rewrite setBrownNoiseVolume_run. simpl.
  unfold wellFormed in Hw. rewrite Hp in Hw.
  destruct Hw as (c & s & g & Hc & Hbs & Hgs & Hs & Hg & _).
  split; [by rewrite Hc|].
  repeat (split; [reflexivity || assumption|]). split; [|reflexivity].
  unfold sessionGains. simpl. rewrite Hc, Hgs. simpl.
  rewrite alterAt_lookup by assumption.
  apply lookup_lt_is_Some in Hg. destruct Hg as [x ->]. reflexivity.
Qed.

Lemma app_changeType_session t w :
  wellFormed w -> isPlaying (engine w) = true ->
  let w' := run (changeNoiseType t) w in
  completion (changeNoiseType t) w = Normal tt
  /\ isPlaying (engine w') = true
  /\ currentNoiseType (engine w') = default "brown" t
  /\ currentVolume (engine w') = currentVolume (engine w)
  /\ sessionGains (engine w') = [Some (currentVolume (engine w))]
  /\ audioSupported (host w') = audioSupported (host w).
Proof.
  intros Hw Hp. unfold run, completion. cbv zeta. rewrite changeNoiseType_run, Hp.
  pose proof (wellFormed_stop w Hw) as Hw0. unfold run in Hw0.
  rewrite stopBrownNoise_run, Hp in Hw0.
  unfold wellFormed in Hw. rewrite Hp in Hw. destruct Hw as (c & s & g & Hc & _).
  set (w0 := mkWorld (stoppedEngine (engine w)) (host w)) in *.
  assert (Hc0 : canStart w0 = true).
  { unfold canStart, w0. simpl. by rewrite Hc. }
  destruct (app_start_session t (Some (currentVolume (engine w))) w0 Hw0 eq_refl Hc0)
    as (? & ? & ? & ? & ? & ?).
  by repeat split.
Qed.

(** The engine in step with the timer: it plays exactly while the timer is
    in an unpaused focus period, and then with the type and the volume the
    component shows. *)
Definition inStep (s : Timer) (w : World) : Prop :=
  wellFormed w
  /\ audioSupported (host w) = true
  /\ isPlaying (engine w) = focusing s
  /\ (isPlaying (engine w) = true ->
      currentNoiseType (engine w) = noiseType s
      /\ currentVolume (engine w) = noiseVolume s
      /\ sessionGains (engine w) = [Some (noiseVolume s)]).

Lemma app_effect_run s w :
  wellFormed w ->
  audioSupported (host w) = true ->
  (isPlaying (engine w) = true ->
   currentNoiseType (engine w) = noiseType s
   /\ currentVolume (engine w) = noiseVolume s
   /\ sessionGains (engine w) = [Some (noiseVolume s)]) ->
  completion (noiseControlEffect s) w = Normal tt
  /\ inStep s (run (noiseControlEffect s) w)
  /\ (isPlaying (engine w) = focusing s -> run (noiseControlEffect s) w = w).
Proof.
  intros Hw Hh Hmatch. unfold noiseControlEffect, run, completion.
  destruct (focusing s) eqn:Hf.
  - erewrite (bind_normal isBrownNoisePlaying) by reflexivity.
    destruct (isPlaying (engine w)) eqn:Hp; cbv beta iota delta [negb].
    + split; [reflexivity|]. split; [|reflexivity].
      unfold inStep, ret. cbn [snd]. rewrite Hf.
      split; [exact Hw|]. split; [exact Hh|]. split; [exact Hp|].
      intros _. by apply Hmatch.
    + destruct (app_start_session (Some (noiseType s)) (Some (noiseVolume s)) w Hw Hp
                  (app_canStart w Hh)) as (Hn & Hp' & Hty & Hv & Hg & Hh').
      unfold run, completion in *. cbv zeta in *.
      split; [exact Hn|]. split; [|discriminate].
      unfold inStep. rewrite Hf, Hh'.
      split; [apply (wellFormed_start _ _ w Hw)|]. by repeat split.
  - erewrite (bind_normal isBrownNoisePlaying) by reflexivity.
    destruct (isPlaying (engine w)) eqn:Hp; cbv beta iota.
    + rewrite stopBrownNoise_run, Hp. simpl.
      split; [reflexivity|]. split; [|discriminate].
      unfold inStep. simpl. rewrite Hf.
      pose proof (wellFormed_stop w Hw) as Hw0. unfold run in Hw0.
      rewrite stopBrownNoise_run, Hp in Hw0.
      split; [exact Hw0|]. split; [exact Hh|]. split; [reflexivity|discriminate].
    + split; [reflexivity|]. split; [|reflexivity].
      unfold inStep, ret. cbn [snd]. rewrite Hf.
      split; [exact Hw|]. split; [exact Hh|]. split; [exact Hp|].
      rewrite Hp. discriminate.
Qed.

Lemma app_step_inStep ev s w :
  inStep s w -> inStep (fst (step ev (s, w))) (snd (step ev (s, w))).
Proof.
  intros (Hw & Hh & Hp & Hmatch). unfold step.
  destruct ev as [| |v|t]; unfold handle.
  - (* start/pause: no call, the effect sees the new flags *)
    assert (E : exists s', handleStartPause s w = (Normal s', w)
                           /\ noiseType s' = noiseType s
                           /\ noiseVolume s' = noiseVolume s).
    { unfold handleStartPause.
      destruct (negb (isRunning s)); [|destruct (negb (isPaused s))];
        eexists; by repeat split. }
    destruct E as (s' & -> & Hty & Hv). cbn [fst snd].
    apply app_effect_run; try assumption. rewrite Hty, Hv. exact Hmatch.
  - (* reset: stop, then the effect on an idle engine *)
    unfold handleReset.
    erewrite bind_normal by (rewrite stopBrownNoise_run; reflexivity).
    unfold ret. cbn [fst snd].
    pose proof (wellFormed_stop w Hw) as Hw0. unfold run in Hw0.
    rewrite stopBrownNoise_run in Hw0. cbn [snd] in Hw0.
    apply app_effect_run.
    + exact Hw0.
    + by destruct (isPlaying (engine w)).
    + destruct (isPlaying (engine w)) eqn:Hp'; [discriminate|].
      intros Hp''. congruence.
  - (* volume: written to the live gain node while focusing *)
    unfold handleVolumeChange.
    destruct (focusing s) eqn:Hf.
    + destruct (app_setVolume_session v w Hw Hp) as (Hn & Hp' & Hty & Hv & Hg & Hh').
      unfold run, completion in *. cbv zeta in *.
      erewrite bind_normal by (rewrite (surjective_pairing (setBrownNoiseVolume v w)), Hn;
                               reflexivity).
      unfold ret. cbn [fst snd].
      apply app_effect_run.
      * apply (wellFormed_setVolume v w Hw).
      * by rewrite Hh'.
      * intros _. cbn [noiseType noiseVolume]. rewrite Hty.
        destruct (Hmatch Hp) as (Hty0 & _). by repeat split.
    + erewrite bind_normal by reflexivity. unfold ret. cbn [fst snd].
      apply app_effect_run; try assumption. intros Hp'. congruence.
  - (* type: the session is rebuilt while focusing *)
    unfold handleNoiseTypeChange.
    destruct (focusing s) eqn:Hf.
    + destruct (app_changeType_session (Some t) w Hw Hp)
        as (Hn & Hp' & Hty & Hv & Hg & Hh').
      unfold run, completion in *. cbv zeta in *.
      erewrite bind_normal by (rewrite (surjective_pairing (changeNoiseType (Some t) w)), Hn;
                               reflexivity).
      unfold ret. cbn [fst snd].
      destruct (Hmatch Hp) as (_ & Hv0 & _).
      apply app_effect_run.
      * apply (wellFormed_changeType (Some t) w Hw).
      * by rewrite Hh'.
      * intros _. cbn [noiseType noiseVolume]. rewrite Hty, Hv, Hg, Hv0. by repeat split.
    + erewrite bind_normal by reflexivity. unfold ret. cbn [fst snd].
      apply app_effect_run; try assumption. intros Hp'. congruence.
Qed.

Lemma app_steps_inStep evs : forall s w,
  inStep s w -> inStep (fst (steps evs (s, w))) (snd (steps evs (s, w))).
Proof.
  induction evs as [|ev evs IH]; intros s w H; [exact H|].
  change (steps (ev :: evs) (s, w)) with (steps evs (step ev (s, w))).
  pose proof (app_step_inStep ev s w H) as H'.
  destruct (step ev (s, w)) as [s' w']. by apply IH.
Qed.

(** The timer component as it mounts: nothing running, 25 and 5 minutes,
    brown noise at 0.3. *)
Definition mounted : Timer := mkTimer 25 5 (25 * 60) false false false 0.3%Q "brown".

(** X16: The noise effect of the timer component brings the engine in line
    with the timer: on a page with Web Audio, whatever the engine was doing,
    the effect completes without throwing and leaves the engine playing
    exactly when the timer is running, not paused and not in a break; when
    the engine already agreed with the timer the effect changes nothing (so
    it never restarts a running session), and when it has to start, the
    session has the component's noise type and volume. *)
Theorem noise_effect_follows_timer (s : Timer) (w : World) :
  wellFormed w ->
  audioSupported (host w) = true ->
  completion (noiseControlEffect s) w = Normal tt
  /\ isPlaying (engine (run (noiseControlEffect s) w)) = focusing s
  /\ (isPlaying (engine w) = focusing s -> run (noiseControlEffect s) w = w)
  /\ (isPlaying (engine w) = false -> focusing s = true ->
      currentNoiseType (engine (run (noiseControlEffect s) w)) = noiseType s
      /\ currentVolume (engine (run (noiseControlEffect s) w)) = noiseVolume s
      /\ sessionGains (engine (run (noiseControlEffect s) w)) = [Some (noiseVolume s)]).
Proof.
  intros Hw Hh. destruct (isPlaying (engine w)) eqn:Hp.
  - (* a session is playing: kept while focusing, stopped otherwise *)
    unfold noiseControlEffect, run, completion.
    destruct (focusing s) eqn:Hf;
      erewrite (bind_normal isBrownNoisePlaying) by reflexivity;
      rewrite Hp; cbv beta iota delta [negb].
    + unfold ret. cbn [fst snd]. by repeat split.
    + rewrite stopBrownNoise_run, Hp. cbn [fst snd].
      split; [reflexivity|]. split; [reflexivity|]. split; discriminate.
  - destruct (app_effect_run s w Hw Hh) as (Hn & (_ & _ & Hp' & Hmatch) & Hid).
    { rewrite Hp. discriminate. }
    split; [exact Hn|]. split; [exact Hp'|]. split; [by rewrite Hp in Hid|].
    intros _ Hf. apply Hmatch. by rewrite Hp'.
Qed.

Lemma noise_effect_follows_timer_witness :
  completion (noiseControlEffect (mkTimer 25 5 1500 true false false 0.5%Q "pink")) desktop
    = Normal tt
  /\ isPlaying (engine (run (noiseControlEffect
                              (mkTimer 25 5 1500 true false false 0.5%Q "pink")) desktop))
     = true.
Proof.
  destruct (noise_effect_follows_timer (mkTimer 25 5 1500 true false false 0.5%Q "pink")
              desktop (wellFormed_initial desktopHost) eq_refl) as (Hn & Hp & _).
  split; [exact Hn | exact Hp].
Defined.

(** X17: The timer component keeps the engine in step with what it shows.
    From a component that is not running, on a fresh page with Web Audio,
    after any sequence of start/pause, reset, volume and noise type actions
    (each followed by the noise effect), the engine plays exactly when the
    timer is running, not paused and not in a break; and while it plays, the
    engine's noise type, its stored volume and the gain of its one gain node
    are the type and the volume the component holds. *)
Theorem timer_keeps_noise_in_step (h : Host) (s0 : Timer) (evs : list Event) :
  audioSupported h = true ->
  isRunning s0 = false ->
  isPlaying (engine (snd (steps evs (s0, initialWorld h))))
    = focusing (fst (steps evs (s0, initialWorld h)))
  /\ (focusing (fst (steps evs (s0, initialWorld h))) = true ->
      currentNoiseType (engine (snd (steps evs (s0, initialWorld h))))
        = noiseType (fst (steps evs (s0, initialWorld h)))
      /\ currentVolume (engine (snd (steps evs (s0, initialWorld h))))
         = noiseVolume (fst (steps evs (s0, initialWorld h)))
      /\ sessionGains (engine (snd (steps evs (s0, initialWorld h))))
         = [Some (noiseVolume (fst (steps evs (s0, initialWorld h))))]).
Proof.
  intros Hh Hr.
  assert (H0 : inStep s0 (initialWorld h)).
  { unfold inStep. split; [apply wellFormed_initial|]. split; [exact Hh|].
    split; [|discriminate]. unfold focusing. by rewrite Hr. }
  destruct (app_steps_inStep evs s0 (initialWorld h) H0) as (_ & _ & Hp & Hmatch).
  split; [exact Hp|]. intros Hf. apply Hmatch. by rewrite Hp.
Qed.

Lemma timer_keeps_noise_in_step_witness :
  isPlaying (engine (snd (steps [StartPause; VolumeChange 0.5%Q; NoiseTypeChange "pink"]
                            (mounted, desktop))))
  = focusing (fst (steps [StartPause; VolumeChange 0.5%Q; NoiseTypeChange "pink"]
                     (mounted, desktop))).
Proof.
  exact (proj1 (timer_keeps_noise_in_step desktopHost mounted
                  [StartPause; VolumeChange 0.5%Q; NoiseTypeChange "pink"]
                  eq_refl eq_refl)).
Defined.

(** ** The clock text

    [formatTime] of the component, on the non-negative whole seconds the
    timer counts in. [toString] is the decimal text of such a number and
    [padStart] pads with one repeated character, as
    [x.toString().padStart(2, '0')] does. *)

Import Ascii.

Definition toString (n : nat) : string :=
  DecimalString.NilEmpty.string_of_uint (Nat.to_uint n).

Fixpoint repeatChar (n : nat) (c : Ascii.ascii) : string :=
  match n with
  | 0 => EmptyString
  | S k => String c (repeatChar k c)
  end.

Definition padStart (targetLength : nat) (c : Ascii.ascii) (s : string) : string :=
  String.append (repeatChar (targetLength - String.length s) c) s.

Definition formatTime (seconds : nat) : string :=
  let mins := seconds / 60 in
  let secs := seconds mod 60 in
  String.append (padStart 2 "0"%char (toString mins))
                (String.append ":" (padStart 2 "0"%char (toString secs))).

(** The character of a decimal digit, and the two-digit text of a number
    below one hundred: what the clock is meant to show in each field. *)
Definition digit (k : nat) : Ascii.ascii := Ascii.ascii_of_nat (48 + k).

Definition twoDigits (n : nat) : string :=
  String (digit (n / 10)) (String (digit (n mod 10)) EmptyString).

Lemma toString_inj n m : toString n = toString m -> n = m.
Proof.
  unfold toString. intros H. apply DecimalNat.Unsigned.to_uint_inj.
  pose proof (DecimalString.NilEmpty.usu (Nat.to_uint n)) as Hn.
  pose proof (DecimalString.NilEmpty.usu (Nat.to_uint m)) as Hm.
  rewrite H in Hn. congruence.
Qed.

Lemma length_string_of_uint d :
  String.length (DecimalString.NilEmpty.string_of_uint d) = Decimal.nb_digits d.
Proof. induction d; simpl; congruence. Qed.

Lemma of_lu_bound d : DecimalNat.Unsigned.of_lu d < 10 ^ Decimal.nb_digits d.
Proof.
  induction d; cbn [DecimalNat.Unsigned.of_lu Decimal.nb_digits];
    [simpl; lia | rewrite Nat.pow_succ_r' by lia; lia ..].
Qed.

Lemma toString_long n : 100 <= n -> 3 <= String.length (toString n).
Proof.
  intros H. unfold toString. rewrite length_string_of_uint.
  pose proof (of_lu_bound (Decimal.rev (Nat.to_uint n))) as Hb.
  rewrite <- DecimalNat.Unsigned.of_uint_alt, DecimalNat.Unsigned.of_to,
    DecimalFacts.nb_digits_rev in Hb.
  destruct (Decimal.nb_digits (Nat.to_uint n)) as [|[|[|k]]]; simpl in Hb; lia.
Qed.

Lemma padStart_short_table :
  forallb (fun n => String.eqb (padStart 2 "0"%char (toString n)) (twoDigits n)) (seq 0 100)
  = true.
Proof. vm_compute. reflexivity. Qed.

Lemma padStart_short n : n < 100 -> padStart 2 "0"%char (toString n) = twoDigits n.
Proof.
  intros H. pose proof padStart_short_table as T.
  rewrite forallb_forall in T. apply String.eqb_eq, T, in_seq. lia.
Qed.

Lemma padStart_long n : 100 <= n -> padStart 2 "0"%char (toString n) = toString n.
Proof.
  intros H. pose proof (toString_long n H) as L. unfold padStart.
  replace (2 - String.length (toString n)) with 0 by lia. reflexivity.
Qed.

Lemma digit_table :
  forallb (fun a => forallb (fun b => implb (Ascii.eqb (digit a) (digit b)) (a =? b))
                            (seq 0 10)) (seq 0 10) = true.
Proof. vm_compute. reflexivity. Qed.

Lemma digit_inj a b : a < 10 -> b < 10 -> digit a = digit b -> a = b.
Proof.
  intros Ha Hb H. pose proof digit_table as T. rewrite forallb_forall in T.
  specialize (T a). rewrite forallb_forall in T.
  specialize (T ltac:(apply in_seq; lia) b ltac:(apply in_seq; lia)).
  rewrite H, Ascii.eqb_refl in T. simpl in T. by apply Nat.eqb_eq.
Qed.

Lemma twoDigits_inj n m : n < 100 -> m < 100 -> twoDigits n = twoDigits m -> n = m.
Proof.
  intros Hn Hm H.
  assert (H1 : digit (n / 10) = digit (m / 10)) by (unfold twoDigits in H; congruence).
  assert (H2 : digit (n mod 10) = digit (m mod 10)) by (unfold twoDigits in H; congruence).
  assert (n / 10 < 10) by (apply Nat.Div0.div_lt_upper_bound; lia).
  assert (m / 10 < 10) by (apply Nat.Div0.div_lt_upper_bound; lia).
  assert (n mod 10 < 10) by (apply Nat.mod_upper_bound; lia).
  assert (m mod 10 < 10) by (apply Nat.mod_upper_bound; lia).
  apply digit_inj in H1; [|assumption..]. apply digit_inj in H2; [|assumption..].
  rewrite (Nat.div_mod_eq n 10), (Nat.div_mod_eq m 10), H1, H2. reflexivity.
Qed.

Lemma padded_inj n m :
  padStart 2 "0"%char (toString n) = padStart 2 "0"%char (toString m) -> n = m.
Proof.
  intros H. destruct (le_lt_dec 100 n) as [Hn|Hn], (le_lt_dec 100 m) as [Hm|Hm].
  - rewrite !padStart_long in H by assumption. by apply toString_inj.
  - exfalso. apply (f_equal String.length) in H.
    rewrite (padStart_long n Hn), (padStart_short m Hm) in H.
    pose proof (toString_long n Hn). simpl in H. lia.
  - exfalso. apply (f_equal String.length) in H.
    rewrite (padStart_long m Hm), (padStart_short n Hn) in H.
    pose proof (toString_long m Hm). simpl in H. lia.
  - rewrite !padStart_short in H by assumption. by apply twoDigits_inj.
Qed.

Lemma length_append s t :
  String.length (String.append s t) = String.length s + String.length t.
Proof. induction s; simpl; congruence. Qed.

Lemma append_inj_l s s' t t' :
  String.length s = String.length s' ->
  String.append s t = String.append s' t' -> s = s' /\ t = t'.
Proof.
  revert s'. induction s as [|c s IH]; intros [|c' s'] L H; simpl in *; try discriminate.
  - by split.
  - injection H as -> H. injection L as L. destruct (IH s' L H) as [-> ->]. by split.
Qed.

Lemma length_twoDigits n : String.length (twoDigits n) = 2.
Proof. reflexivity. Qed.

(** X18: The clock never shows the same text for two different remaining
    times: [formatTime] sends different numbers of seconds to different
    strings, also beyond 99 minutes, where the minutes field grows past two
    characters. *)
Theorem formatTime_distinct (a b : nat) : a <> b -> formatTime a <> formatTime b.
Proof.
  intros Hab H. apply Hab. unfold formatTime in H. cbv zeta in H.
  assert (Ha : a mod 60 < 100) by (pose proof (Nat.mod_upper_bound a 60); lia).
  assert (Hb : b mod 60 < 100) by (pose proof (Nat.mod_upper_bound b 60); lia).
  rewrite (padStart_short _ Ha), (padStart_short _ Hb) in H.
  pose proof (f_equal String.length H) as L.
  rewrite !length_append, !length_twoDigits in L.
  change (String.length ":") with 1 in L.
  apply append_inj_l in H; [|lia].
  destruct H as [Hm Hs].
  assert (Hs' : twoDigits (a mod 60) = twoDigits (b mod 60)).
  { change (String ":" (twoDigits (a mod 60)) = String ":" (twoDigits (b mod 60))) in Hs.
    congruence. }
  apply padded_inj in Hm. apply twoDigits_inj in Hs'; try assumption.
  rewrite (Nat.div_mod_eq a 60), (Nat.div_mod_eq b 60), Hm, Hs'. reflexivity.
Qed.

Lemma formatTime_distinct_witness : formatTime 59 <> formatTime 60.
Proof. apply (formatTime_distinct 59 60). discriminate. Defined.

(** X19: Below 100 minutes the clock text is exactly [mm:ss]: two decimal
    digits of the whole minutes, a colon, two decimal digits of the
    remaining seconds, each field padded with a zero. From 100 minutes on
    nothing is cut off: the text is longer than five characters. *)
Theorem formatTime_shape (seconds : nat) :
  (seconds < 100 * 60 ->
   formatTime seconds
   = String.append (twoDigits (seconds / 60))
                   (String.append ":" (twoDigits (seconds mod 60))))
  /\ (100 * 60 <= seconds -> 5 < String.length (formatTime seconds)).
Proof.
  assert (Hs : seconds mod 60 < 100) by (pose proof (Nat.mod_upper_bound seconds 60); lia).
  unfold formatTime. cbv zeta. rewrite (padStart_short _ Hs). split; intros H.
  - rewrite padStart_short; [reflexivity|]. apply Nat.Div0.div_lt_upper_bound. lia.
  - assert (Hm : 100 <= seconds / 60) by (apply Nat.div_le_lower_bound; lia).
    rewrite (padStart_long _ Hm), !length_append, length_twoDigits.
    pose proof (toString_long _ Hm). change (String.length ":") with 1. lia.
Qed.

End App.
